(** * G-IMGTool: a shallow embedding of [gimgtool.py] and its properties

    The archive tool reads and writes RenderWare IMG containers: an optional
    8-byte header (["VER2"] and a little-endian entry count), a table of
    32-byte directory records (start sector, byte size, 24-byte name) and the
    member payloads, each aligned to a 2048-byte sector.

    How the program is modelled:
    - Python integers are [Z], byte strings are [list byte], text is
      [string] with one character per code point below 256;
    - a file object is a buffer with a position; [read] is short at the end
      of the file, [write] past the end fills the hole with zero bytes;
    - the file system is a finite map from paths to nodes, a node being a
      regular file or a flat directory of regular files; paths are opaque,
      and a name with a path separator is not followed;
    - exceptions are explicit outcomes, and the store keeps what was written
      when one is raised;
    - the [while] loop of the VER1 entry count runs on fuel, shown
      sufficient in [scan_ver1_terminates];
    - [print] is left out, except that the rows of a listing and the lines
      of a report are their results;
    - the scratch directory of the tool ([tempfile.mkdtemp]), the pattern
      matcher [fnmatch.fnmatch] and the clock that [rebuild_img] reads are
      arguments of the calls that use them. *)

From Stdlib Require Import ZArith Lia Strings.Byte Strings.Ascii Strings.String.
From stdpp Require Import gmap strings list sorting pretty.

Open Scope Z_scope.

(** ** Bytes and outcomes *)

Abbreviation bytes := (list byte).

#[global] Instance byte_eq_dec : EqDecision byte := Byte.byte_eq_dec.

Definition byte_val (b : byte) : Z := Z.of_N (Byte.to_N b).

Definition byte_of_Z (z : Z) : byte :=
  match Byte.of_N (Z.to_N (z mod 256)) with
  | Some b => b
  | None => x00
  end.

(** The exceptions the tool can meet. [IOError] is Python 3's [OSError]. *)
Inductive exn : Type :=
  | StructError
  | OSError
  | UnicodeEncodeError.

(** The outcome of a call: a value, a raised exception, or a loop model that
    ran out of fuel (shown below never to happen). *)
Inductive result (A : Type) : Type :=
  | Ok (a : A)
  | Raise (e : exn)
  | OutOfFuel.
Arguments Ok {A} a.
Arguments Raise {A} e.
Arguments OutOfFuel {A}.

#[global] Instance result_ret : MRet result := fun A a => Ok a.

#[global] Instance result_bind : MBind result := fun A B k r =>
  match r with
  | Ok a => k a
  | Raise e => Raise e
  | OutOfFuel => OutOfFuel
  end.

(** ** [struct.pack('<I', x)] and [struct.unpack('<I', b)] *)

(** The four bytes of a 32-bit value, least significant first. *)
Definition le32 (x : Z) : bytes :=
  [byte_of_Z x; byte_of_Z (x / 256); byte_of_Z (x / 65536);
   byte_of_Z (x / 16777216)].

Definition pack_u32 (x : Z) : result bytes :=
  if (0 <=? x) && (x <? 4294967296) then Ok (le32 x) else Raise StructError.

Definition unpack_u32 (b : bytes) : result Z :=
  match b with
  | [b0; b1; b2; b3] =>
      Ok (byte_val b0 + 256 * byte_val b1 + 65536 * byte_val b2
          + 16777216 * byte_val b3)
  | _ => Raise StructError
  end.

(** ** File objects *)

Record handle : Type := Handle { h_data : bytes; h_pos : Z }.

Definition open_rb (data : bytes) : handle := Handle data 0.
Definition open_wb : handle := Handle [] 0.

Definition f_seek (p : Z) (f : handle) : handle := Handle (h_data f) p.

(** [f.read(n)]: at most [n] bytes from the position, fewer at the end of
    the file, none beyond it. *)
Definition slice (data : bytes) (pos n : Z) : bytes :=
  let len := Z.of_nat (length data) in
  if len <=? pos then []
  else take (Z.to_nat (Z.min n (len - pos))) (drop (Z.to_nat pos) data).

Definition f_read (n : Z) (f : handle) : bytes * handle :=
  let b := slice (h_data f) (h_pos f) n in
  (b, Handle (h_data f) (h_pos f + Z.of_nat (length b))).

(** [f.write(b)]: overwrite at the position, growing the file; a position
    beyond the end leaves a hole of zero bytes.  Writing nothing changes
    nothing. *)
Definition f_write (b : bytes) (f : handle) : handle :=
  match b with
  | [] => f
  | _ =>
      let p := Z.to_nat (h_pos f) in
      let d := h_data f ++ replicate (p - length (h_data f))%nat x00 in
      Handle (take p d ++ b ++ drop (p + length b)%nat d)
             (h_pos f + Z.of_nat (length b))
  end.

(** ** The file system *)

(** A path names a regular file or a directory of regular files; the members
    of a directory are addressed by the directory's path and their name. *)
Inductive node : Type :=
  | File (data : bytes)
  | Dir (files : gmap string bytes).

Abbreviation filesystem := (gmap string node).

#[global] Instance node_eq_dec : EqDecision node.
Proof. solve_decision. Defined.

Definition isfile (fs : filesystem) (p : string) : bool :=
  match fs !! p with Some (File _) => true | _ => false end.

Definition isdir (fs : filesystem) (p : string) : bool :=
  match fs !! p with Some (Dir _) => true | _ => false end.

Definition getsize (data : bytes) : Z := Z.of_nat (length data).

(** ** Constants *)

Definition VERSION : string := "2.0.0".
Definition SECTOR_SIZE : Z := 2048.

Inductive img_format : Type := VER1 | VER2 | INVALID.

#[global] Instance img_format_eq_dec : EqDecision img_format.
Proof. solve_decision. Defined.

(** [b'VER2'] *)
Definition VER2_magic : bytes := [x56; x45; x52; x32].

(** ** [IMGTool.detect_img_format] *)

Definition detect_img_format (fs : filesystem) (img_file : string) : img_format :=
  match fs !! img_file with
  | Some (File data) =>
      let f := open_rb data in
      let '(signature, f) := f_read 4 f in
      if bool_decide (signature = VER2_magic) then VER2 else
      let file_size := getsize data in
      if file_size <? 32 then INVALID else
      let f := f_seek 0 f in
      let '(b, f) := f_read 4 f in
      match unpack_u32 b with
      | Ok first_offset =>
          let '(b, f) := f_read 4 f in
          match unpack_u32 b with
          | Ok first_size =>
              if (0 <? first_offset) && (0 <? first_size)
                 && (first_size <? file_size)
              then VER1 else INVALID
          | _ => INVALID
          end
      | _ => INVALID
      end
  | _ => INVALID
  end.

(** ** [IMGTool.get_entry_count] *)

(** The [while offset < file_size] loop of the VER1 branch; [None] when the
    fuel is spent before the loop ends. *)
Fixpoint scan_ver1 (fuel : nat) (f : handle) (file_size entry_count offset : Z)
  : option Z :=
  if negb (offset <? file_size) then Some entry_count else
  match fuel with
  | O => None
  | S fuel =>
      let f := f_seek offset f in
      let '(b, f) := f_read 4 f in
      match unpack_u32 b with
      | Ok file_offset =>
          let '(b, f) := f_read 4 f in
          match unpack_u32 b with
          | Ok file_size_entry =>
              if (file_offset =? 0) && (file_size_entry =? 0)
              then Some entry_count
              else if (0 <? file_offset) && (0 <? file_size_entry) then
                let entry_count := entry_count + 1 in
                let offset := offset + 32 in
                if 10000 <? entry_count then Some entry_count
                else scan_ver1 fuel f file_size entry_count offset
              else Some entry_count
          | _ => Some entry_count
          end
      | _ => Some entry_count
      end
  end.

Definition get_entry_count (fs : filesystem) (img_file : string)
    (format_type : img_format) : result Z :=
  match fs !! img_file with
  | Some (File data) =>
      let f := open_rb data in
      match format_type with
      | VER2 =>
          let f := f_seek 4 f in
          let '(b, f) := f_read 4 f in
          unpack_u32 b
      | VER1 =>
          let file_size := getsize data in
          match scan_ver1 (S (length data)) f file_size 0 0 with
          | Some entry_count => Ok entry_count
          | None => OutOfFuel
          end
      | INVALID => Ok 0
      end
  | _ => Raise OSError
  end.

(** ** Names *)

(** [b.split(b'\x00')[0]] *)
Fixpoint split_nul_first (b : bytes) : bytes :=
  match b with
  | [] => []
  | c :: b' => if bool_decide (c = x00) then [] else c :: split_nul_first b'
  end.

(** ASCII white space, as [bytes.strip()] understands it. *)
Definition is_space (c : byte) : bool :=
  match c with
  | x20 | x09 | x0a | x0d | x0b | x0c => true
  | _ => false
  end.

Fixpoint lstrip (p : byte -> bool) (b : bytes) : bytes :=
  match b with
  | [] => []
  | c :: b' => if p c then lstrip p b' else b
  end.

Definition rstrip (p : byte -> bool) (b : bytes) : bytes :=
  reverse (lstrip p (reverse b)).

Definition strip (b : bytes) : bytes := rstrip is_space (lstrip is_space b).

Definition is_nul (c : byte) : bool := bool_decide (c = x00).

(** [b.decode('ascii', errors='ignore')] *)
Definition decode_ascii_ignore (b : bytes) : string :=
  string_of_list_byte (List.filter (fun c => byte_val c <? 128) b).

(** [s.encode('ascii')] *)
Definition encode_ascii (s : string) : result bytes :=
  if forallb (fun c => byte_val c <? 128) (list_byte_of_string s)
  then Ok (list_byte_of_string s)
  else Raise UnicodeEncodeError.

(** [b.ljust(n, b'\x00')] *)
Definition ljust (n : nat) (b : bytes) : bytes :=
  b ++ replicate (n - length b)%nat x00.

Definition str_len (s : string) : Z := Z.of_nat (String.length s).

(** ** Directories *)

(** A name that denotes an entry of the directory itself.  Directories are
    flat: a name with a path separator, or one of the two dot names, does not
    denote a file that can be created in it, and opening it raises
    [OSError]. *)
Definition plain_name (s : string) : bool :=
  negb (String.eqb s "") && negb (String.eqb s ".") && negb (String.eqb s "..")
  && forallb (fun c => negb (Ascii.eqb c "/")) (list_ascii_of_string s).

(** [open(os.path.join(d, name), 'wb')] followed by one [write]. *)
Definition write_file (d : gmap string bytes) (name : string) (data : bytes)
  : result (gmap string bytes) :=
  if plain_name name then Ok (<[name := data]> d) else Raise OSError.

(** [os.listdir], in some order. *)
Definition listdir (d : gmap string bytes) : list string := (map_to_list d).*1.

Definition str_le (a b : string) : Prop := String.leb a b = true.

#[global] Instance str_le_dec : RelDecision str_le.
Proof. intros a b. unfold str_le. apply _. Defined.

(** [sorted] on a list of names. *)
Definition sorted (l : list string) : list string := merge_sort str_le l.

(** ** [IMGTool.extract_img] *)

(** The state of the extraction loop: the files of the output directory and,
    as a record of what happened, the names written so far (oldest first). *)
Record extraction : Type := Extraction {
  ex_files : gmap string bytes;
  ex_written : list string
}.

(** The body of the [try] block for directory index [i]. *)
Definition extract_entry (f : handle) (dir_start i : Z) (st : extraction)
  : result extraction :=
  let dir_offset := dir_start + i * 32 in
  let f := f_seek dir_offset f in
  let '(b, f) := f_read 4 f in
  file_offset ← unpack_u32 b;
  let '(b, f) := f_read 4 f in
  file_size ← unpack_u32 b;
  let '(filename_bytes, f) := f_read 24 f in
  let filename := decode_ascii_ignore (strip (split_nul_first filename_bytes)) in
  if String.eqb filename "" || (file_size =? 0) then Ok st else
  let byte_offset := file_offset * SECTOR_SIZE in
  let f := f_seek byte_offset f in
  let '(file_data, f) := f_read file_size f in
  files ← write_file (ex_files st) filename file_data;
  Ok (Extraction files (ex_written st ++ [filename])).

(** [except (struct.error, IOError): continue] *)
Definition except_continue {S : Type} (r : result S) (st : S) : result S :=
  match r with
  | Raise StructError | Raise OSError => Ok st
  | _ => r
  end.

Fixpoint for_each {S : Type} (body : Z -> S -> result S) (l : list Z) (st : S)
  : result S :=
  match l with
  | [] => Ok st
  | i :: l' => st' ← body i st; for_each body l' st'
  end.

Definition extract_loop (f : handle) (dir_start entry_count : Z)
    (st : extraction) : result extraction :=
  for_each (fun i st => except_continue (extract_entry f dir_start i st) st)
           (seqZ 0 entry_count) st.

Definition dir_start_of (format_type : img_format) : Z :=
  match format_type with VER2 => 8 | _ => 0 end.

(** The call, with the names it wrote.  [os.makedirs(output_dir,
    exist_ok=True)] raises when the path is a regular file. *)
Definition extract_img_log (fs : filesystem) (img_file output_dir : string)
  : result bool * filesystem * list string :=
  match fs !! img_file with
  | Some (File data) =>
      match fs !! output_dir with
      | Some (File _) => (Raise OSError, fs, [])
      | made =>
          let out := match made with Some (Dir d) => d | _ => ∅ end in
          let fs := <[output_dir := Dir out]> fs in
          let format_type := detect_img_format fs img_file in
          match format_type with
          | INVALID => (Ok false, fs, [])
          | _ =>
              match get_entry_count fs img_file format_type with
              | Ok entry_count =>
                  let dir_start := dir_start_of format_type in
                  match extract_loop (open_rb data) dir_start entry_count
                                     (Extraction out []) with
                  | Ok st =>
                      (Ok true, <[output_dir := Dir (ex_files st)]> fs,
                       ex_written st)
                  | Raise e => (Raise e, fs, [])
                  | OutOfFuel => (OutOfFuel, fs, [])
                  end
              | Raise e => (Raise e, fs, [])
              | OutOfFuel => (OutOfFuel, fs, [])
              end
          end
      end
  | _ => (Ok false, fs, [])
  end.

Definition extract_img (fs : filesystem) (img_file output_dir : string)
  : result bool * filesystem :=
  (extract_img_log fs img_file output_dir).1.

(** The number of members one call writes to the output directory. *)
Definition members_written (fs : filesystem) (img_file output_dir : string)
  : Z :=
  Z.of_nat (length (extract_img_log fs img_file output_dir).2).

(** ** [IMGTool.create_img] *)

Definition header_size_of (format_type : img_format) : Z :=
  match format_type with VER2 => 8 | _ => 0 end.

Definition dir_size_of (format_type : img_format) (nfiles : Z) : Z :=
  header_size_of format_type + nfiles * 32.

Definition data_start_sector_of (format_type : img_format) (nfiles : Z) : Z :=
  (dir_size_of format_type nfiles + SECTOR_SIZE - 1) / SECTOR_SIZE.

(** One element of [file_info]: path, size and start sector. *)
Abbreviation file_info := (list (string * Z * Z)).

(** The loop over [enumerate(files)] that writes the directory records and
    collects [file_info].  [input] holds the files of the input directory. *)
Fixpoint write_directory (format_type : img_format) (input : gmap string bytes)
    (files : list string) (i current_sector : Z) (info : file_info)
    (f : handle) : result file_info * handle :=
  match files with
  | [] => (Ok info, f)
  | filename :: files' =>
      let filepath := filename in
      match input !! filepath with
      | None => (Raise OSError, f)
      | Some data =>
          let filesize := getsize data in
          let filename :=
            if 24 <? str_len filename then String.substring 0 24 filename
            else filename in
          let sectors_needed := (filesize + SECTOR_SIZE - 1) / SECTOR_SIZE in
          let dir_offset := (match format_type with VER2 => 8 | _ => 0 end)
                            + i * 32 in
          let f := f_seek dir_offset f in
          match pack_u32 current_sector with
          | Ok b =>
              let f := f_write b f in
              match pack_u32 filesize with
              | Ok b =>
                  let f := f_write b f in
                  match encode_ascii filename with
                  | Ok b =>
                      let f := f_write (ljust 24 (take 24 b)) f in
                      write_directory format_type input files' (i + 1)
                        (current_sector + sectors_needed)
                        (info ++ [(filepath, filesize, current_sector)]) f
                  | Raise e => (Raise e, f)
                  | OutOfFuel => (OutOfFuel, f)
                  end
              | Raise e => (Raise e, f)
              | OutOfFuel => (OutOfFuel, f)
              end
          | Raise e => (Raise e, f)
          | OutOfFuel => (OutOfFuel, f)
          end
      end
  end.

(** The loop over [file_info] that writes the payloads. *)
Fixpoint write_data (input : gmap string bytes) (info : file_info) (f : handle)
  : result unit * handle :=
  match info with
  | [] => (Ok (), f)
  | (filepath, filesize, sector) :: info' =>
      match input !! filepath with
      | None => (Raise OSError, f)
      | Some data =>
          let f := f_write data f in
          let padding := SECTOR_SIZE - filesize `mod` SECTOR_SIZE in
          let f := if bool_decide (padding ≠ SECTOR_SIZE)
                   then f_write (replicate (Z.to_nat padding) x00) f
                   else f in
          write_data input info' f
      end
  end.

(** The body of [with open(img_file, 'wb') as f]. *)
Definition create_img_body (format_type : img_format)
    (input : gmap string bytes) (files : list string) : result unit * handle :=
  let nfiles := Z.of_nat (length files) in
  let header_size := header_size_of format_type in
  let dir_size := dir_size_of format_type nfiles in
  let data_start_sector := data_start_sector_of format_type nfiles in
  let f := open_wb in
  let header :=
    match format_type with
    | VER2 =>
        let f := f_write VER2_magic f in
        match pack_u32 nfiles with
        | Ok b => (Ok (), f_write b f)
        | Raise e => (Raise e, f)
        | OutOfFuel => (OutOfFuel, f)
        end
    | _ => (Ok (), f)
    end in
  match header with
  | (Ok _, f) =>
      let f := f_write (replicate (Z.to_nat (dir_size - header_size)) x00) f in
      let current_sector := data_start_sector in
      match write_directory format_type input files 0 current_sector [] f with
      | (Ok info, f) =>
          let data_start_byte := data_start_sector * SECTOR_SIZE in
          let f := f_seek data_start_byte f in
          write_data input info f
      | (Raise e, f) => (Raise e, f)
      | (OutOfFuel, f) => (OutOfFuel, f)
      end
  | r => r
  end.

(** The format token is the upper-cased argument; every token other than
    ["VER1"] and ["VER2"] is [INVALID] here.  All entries of a directory are
    regular files, so the [os.path.isfile] filter of the listing keeps them
    all.  The store holds whatever was written when the body ends, by
    [return] or by an exception. *)
Definition create_img (fs : filesystem) (format_type : img_format)
    (img_file input_dir : string) : result bool * filesystem :=
  match fs !! input_dir with
  | Some (Dir input) =>
      match format_type with
      | INVALID => (Ok false, fs)
      | _ =>
          let files := sorted (listdir input) in
          match files with
          | [] => (Ok false, fs)
          | _ =>
              match fs !! img_file with
              | Some (Dir _) => (Raise OSError, fs)
              | _ =>
                  let '(r, f) := create_img_body format_type input files in
                  (_ ← r; Ok true, <[img_file := File (h_data f)]> fs)
              end
          end
      end
  | _ => (Ok false, fs)
  end.

(** ** [IMGTool.list_img_filtered] *)

(** One printed row: name, size, start sector. *)
Abbreviation row := (string * Z * Z)%type.

(** The body of the [try] block for directory index [i]; [rows] are the rows
    printed so far.  [fnmatch] is the pattern matcher the tool consumes. *)
Definition list_entry (fnmatch : string -> string -> bool)
    (filter_pattern : option string) (f : handle) (dir_start i : Z)
    (rows : list row) : result (list row) :=
  let dir_offset := dir_start + i * 32 in
  let f := f_seek dir_offset f in
  let '(b, f) := f_read 4 f in
  file_offset ← unpack_u32 b;
  let '(b, f) := f_read 4 f in
  file_size ← unpack_u32 b;
  let '(b, f) := f_read 24 f in
  let filename := decode_ascii_ignore (rstrip is_nul b) in
  if String.eqb filename "" || (file_size =? 0) then Ok rows else
  let filtered_out :=
    match filter_pattern with
    | Some pat => negb (String.eqb pat "") && negb (fnmatch filename pat)
    | None => false
    end in
  if filtered_out then Ok rows
  else Ok (rows ++ [(filename, file_size, file_offset)]).

Definition list_img_filtered (fnmatch : string -> string -> bool)
    (fs : filesystem) (img_file : string) (filter_pattern : option string)
  : result bool * list row :=
  match fs !! img_file with
  | Some (File data) =>
      let format_type := detect_img_format fs img_file in
      match format_type with
      | INVALID => (Ok false, [])
      | _ =>
          match get_entry_count fs img_file format_type with
          | Ok entry_count =>
              let dir_start := dir_start_of format_type in
              match for_each
                      (fun i rows =>
                         except_continue
                           (list_entry fnmatch filter_pattern (open_rb data)
                                       dir_start i rows) rows)
                      (seqZ 0 entry_count) [] with
              | Ok rows => (Ok true, rows)
              | Raise e => (Raise e, [])
              | OutOfFuel => (OutOfFuel, [])
              end
          | Raise e => (Raise e, [])
          | OutOfFuel => (OutOfFuel, [])
          end
      end
  | _ => (Ok false, [])
  end.

(** ** [IMGTool.info_img] *)

(** What the report prints for a valid store. [rep_efficiency] is absent
    when the line is not printed. *)
Record report : Type := Report {
  rep_size : Z;
  rep_format : img_format;
  rep_entries : Z;
  rep_header_size : Z;
  rep_dir_size : Z;
  rep_data_start_sector : Z;
  rep_data_start_byte : Z;
  rep_total_data_size : Z;
  rep_overhead : Z;
  rep_efficiency : option Z
}.

(** One round of the summing loop on the variables [file_size] and
    [total_data_size]; a record that cannot be read changes neither. *)
Definition info_entry (f : handle) (dir_start i : Z) (st : Z * Z) : Z * Z :=
  let '(file_size, total_data_size) := st in
  let dir_offset := dir_start + i * 32 + 4 in
  let f := f_seek dir_offset f in
  let '(b, f) := f_read 4 f in
  match unpack_u32 b with
  | Ok file_size => (file_size, total_data_size + file_size)
  | _ => (file_size, total_data_size)
  end.

Definition info_img (fs : filesystem) (img_file : string)
  : result (bool * option report) :=
  match fs !! img_file with
  | Some (File data) =>
      let file_size := getsize data in
      let size_printed := file_size in
      let format_type := detect_img_format fs img_file in
      match format_type with
      | INVALID => Ok (false, None)
      | _ =>
          entry_count ← get_entry_count fs img_file format_type;
          let header_size := header_size_of format_type in
          let dir_size := header_size + entry_count * 32 in
          let data_start_sector := (dir_size + SECTOR_SIZE - 1) / SECTOR_SIZE in
          let data_start_byte := data_start_sector * SECTOR_SIZE in
          let total_data_size := 0 in
          let dir_start := header_size in
          let '(file_size, total_data_size) :=
            foldl (fun st i => info_entry (open_rb data) dir_start i st)
                  (file_size, total_data_size) (seqZ 0 entry_count) in
          Ok (true,
              Some (Report size_printed format_type entry_count header_size
                      dir_size data_start_sector data_start_byte
                      total_data_size (file_size - total_data_size)
                      (if 0 <? file_size
                       then Some ((total_data_size * 100) / file_size)
                       else None)))
      end
  | _ => Ok (false, None)
  end.

(** ** [IMGTool.rename_in_img] *)

(** [os.path.join(self.temp_dir, 'img_work')] *)
Definition work_dir_of (temp_dir : string) : string :=
  (temp_dir ++ "/img_work")%string.

(** [os.rename] inside one directory; the target is known not to exist. *)
Definition rename_file (d : gmap string bytes) (old_name new_name : string)
  : result (gmap string bytes) :=
  match d !! old_name with
  | Some data =>
      if plain_name new_name then Ok (<[new_name := data]> (delete old_name d))
      else Raise OSError
  | None => Raise OSError
  end.

Definition rename_in_img (fs : filesystem) (temp_dir img_file : string)
    (old_name new_name : string) : result bool * filesystem :=
  if String.eqb old_name "" || String.eqb new_name "" then (Ok false, fs) else
  if 24 <? str_len new_name then (Ok false, fs) else
  let format_type := detect_img_format fs img_file in
  match format_type with
  | INVALID => (Ok false, fs)
  | _ =>
      let work_dir := work_dir_of temp_dir in
      match extract_img fs img_file work_dir with
      | (Ok true, fs) =>
          match fs !! work_dir with
          | Some (Dir d) =>
              if negb (bool_decide (is_Some (d !! old_name)))
              then (Ok false, fs)
              else if bool_decide (is_Some (d !! new_name))
              then (Ok false, fs)
              else
                match rename_file d old_name new_name with
                | Ok d =>
                    let fs := <[work_dir := Dir d]> fs in
                    match create_img fs format_type img_file work_dir with
                    | (Ok true, fs) => (Ok true, fs)
                    | (Ok false, fs) => (Ok false, fs)
                    | r => r
                    end
                | Raise e => (Raise e, fs)
                | OutOfFuel => (OutOfFuel, fs)
                end
          | _ => (Ok false, fs)
          end
      | (Ok false, fs) => (Ok false, fs)
      | r => r
      end
  end.

(** ** [IMGTool.add_multiple_to_img] *)

(** [os.path.basename]: what follows the last path separator. *)
Fixpoint basename (p : string) : string :=
  match p with
  | EmptyString => EmptyString
  | String c p' =>
      if forallb (fun c => negb (Ascii.eqb c "/")) (list_ascii_of_string p)
      then p else basename p'
  end.



(** ** [IMGTool.remove_multiple_from_img] *)




(** ** [IMGTool.rebuild_img] *)

(** [f"{img_file}.backup.{int(time.time())}"] *)
Definition backup_file_of (img_file : string) (now : Z) : string :=
  (img_file ++ ".backup." ++ pretty now)%string.

(** [shutil.copy2(src, dst)]: a destination that is a directory receives the
    file under the base name of the source. *)
Definition copy2 (fs : filesystem) (src dst : string) : result filesystem :=
  match fs !! src with
  | Some (File data) =>
      match fs !! dst with
      | Some (Dir d) =>
          d ← write_file d (basename src) data; Ok (<[dst := Dir d]> fs)
      | _ => if String.eqb src dst then Raise OSError
             else Ok (<[dst := File data]> fs)
      end
  | _ => Raise OSError
  end.

(** [now] is the value of [int(time.time())]. *)
Definition rebuild_img (fs : filesystem) (temp_dir : string) (now : Z)
    (img_file : string) : result bool * filesystem :=
  let format_type := detect_img_format fs img_file in
  match format_type with
  | INVALID => (Ok false, fs)
  | _ =>
      let work_dir := work_dir_of temp_dir in
      let backup_file := backup_file_of img_file now in
      match copy2 fs img_file backup_file with
      | Ok fs =>
          match extract_img fs img_file work_dir with
          | (Ok true, fs) =>
              match create_img fs format_type img_file work_dir with
              | (Ok true, fs) => (Ok true, fs)
              | r => r
              end
          | (Ok false, fs) => (Ok false, fs)
          | r => r
          end
      | Raise e => (Raise e, fs)
      | OutOfFuel => (OutOfFuel, fs)
      end
  end.

(** * Notions used to state the properties *)

(** ** The extraction loop, entry by entry *)

(** One round of the loop with its [except] clause applied: an entry whose
    [try] block raises leaves the state as it was. *)
Definition extract_step (f : handle) (dir_start : Z) (st : extraction) (i : Z)
  : extraction :=
  match extract_entry f dir_start i st with
  | Ok st' => st'
  | _ => st
  end.

(** The files of the directory at a path; none when there is no directory. *)
Definition dir_files (fs : filesystem) (p : string) : gmap string bytes :=
  match fs !! p with Some (Dir d) => d | _ => ∅ end.

(** The members of an archive: the files extraction makes of it in an
    empty directory. *)
Definition archive_members (fs : filesystem) (img_file : string)
  : gmap string bytes :=
  match fs !! img_file with
  | Some (File data) =>
      let format_type := detect_img_format fs img_file in
      match format_type with
      | INVALID => ∅
      | _ =>
          match get_entry_count fs img_file format_type with
          | Ok entry_count =>
              match extract_loop (open_rb data) (dir_start_of format_type)
                                 entry_count (Extraction ∅ []) with
              | Ok st => ex_files st
              | _ => ∅
              end
          | _ => ∅
          end
      end
  | _ => ∅
  end.

(** The effect of one written member on the state of the loop. *)
Definition write_member (st : extraction) (m : string * bytes) : extraction :=
  Extraction (<[m.1 := m.2]> (ex_files st)) (ex_written st ++ [m.1]).

(** The start sector, the size and the name a store holds in the directory
    record at a byte offset. *)
Definition entry_at (store : bytes) (off : Z) : result (Z * Z * string) :=
  sector ← unpack_u32 (slice store off 4);
  size ← unpack_u32 (slice store (off + 4) 4);
  Ok (sector, size,
      decode_ascii_ignore (strip (split_nul_first (slice store (off + 8) 24)))).

(** ** The layout of a built store *)

Definition sectors_needed (filesize : Z) : Z :=
  (filesize + SECTOR_SIZE - 1) / SECTOR_SIZE.

(** The zero bytes written after a payload of the given size. *)
Definition padding_of (filesize : Z) : bytes :=
  if bool_decide (SECTOR_SIZE - filesize `mod` SECTOR_SIZE ≠ SECTOR_SIZE)
  then replicate (Z.to_nat (SECTOR_SIZE - filesize `mod` SECTOR_SIZE)) x00
  else [].

(** One directory record. *)
Definition record_bytes (sector filesize : Z) (name : string) : bytes :=
  le32 sector ++ le32 filesize ++ ljust 24 (take 24 (list_byte_of_string name)).

(** Directory table, list of [file_info] and payload region for members
    taken in order, the first one starting at [sector]. *)
Fixpoint dir_bytes (ms : list (string * bytes)) (sector : Z) : bytes :=
  match ms with
  | [] => []
  | (name, data) :: ms' =>
      record_bytes sector (getsize data) name
      ++ dir_bytes ms' (sector + sectors_needed (getsize data))
  end.

Fixpoint info_of (ms : list (string * bytes)) (sector : Z) : file_info :=
  match ms with
  | [] => []
  | (name, data) :: ms' =>
      (name, getsize data, sector)
      :: info_of ms' (sector + sectors_needed (getsize data))
  end.

Fixpoint payload_bytes (ms : list (string * bytes)) : bytes :=
  match ms with
  | [] => []
  | (name, data) :: ms' => data ++ padding_of (getsize data) ++ payload_bytes ms'
  end.

Definition header_bytes (format_type : img_format) (nfiles : Z) : bytes :=
  match format_type with
  | VER2 => VER2_magic ++ le32 nfiles
  | _ => []
  end.

(** The store the builder produces for members taken in order. *)
Definition store_of (format_type : img_format) (ms : list (string * bytes))
  : bytes :=
  let nfiles := Z.of_nat (length ms) in
  let data_start_sector := data_start_sector_of format_type nfiles in
  header_bytes format_type nfiles
  ++ dir_bytes ms data_start_sector
  ++ replicate (Z.to_nat (data_start_sector * SECTOR_SIZE
                          - dir_size_of format_type nfiles)) x00
  ++ payload_bytes ms.

(** The start sector of member [i]. *)
Fixpoint sector_at (ms : list (string * bytes)) (sector : Z) (i : nat) : Z :=
  match i, ms with
  | S i', (name, data) :: ms' =>
      sector_at ms' (sector + sectors_needed (getsize data)) i'
  | _, _ => sector
  end.

(** Every start sector fits 32 bits. *)
Fixpoint sectors_fit (ms : list (string * bytes)) (sector : Z) : Prop :=
  match ms with
  | [] => True
  | (name, data) :: ms' =>
      sector < 4294967296
      /\ sectors_fit ms' (sector + sectors_needed (getsize data))
  end.

(** ** Names and members *)

(** A member the builder can record: an ASCII name of at most 24
    characters and a size that fits 32 bits. *)
Definition recordable (m : string * bytes) : Prop :=
  str_len m.1 <= 24
  /\ encode_ascii m.1 = Ok (list_byte_of_string m.1)
  /\ getsize m.2 < 4294967296.

(** ASCII bytes, none of them NUL. *)
Definition ascii_text (b : bytes) : bool :=
  forallb (fun c => (0 <? byte_val c) && (byte_val c <? 128)) b.

(** Neither the first nor the last byte is white space. *)
Definition no_outer_space (b : bytes) : bool :=
  match head b with Some c => negb (is_space c) | None => true end
  && match last b with Some c => negb (is_space c) | None => true end.

(** A file name that a directory record stores and gives back unchanged: at
    most 24 characters, ASCII without NUL, no white space at either end, and
    a plain name of a directory entry. *)
Definition storable_name (name : string) : bool :=
  (str_len name <=? 24)
  && ascii_text (list_byte_of_string name)
  && no_outer_space (list_byte_of_string name)
  && plain_name name.

(** A member that survives a round trip: a storable name and a payload
    that is not empty and whose size fits 32 bits. *)
Definition good_member (m : string * bytes) : Prop :=
  storable_name m.1 = true /\ 0 < getsize m.2 < 4294967296.

(** The members of a directory in the order the builder takes them. *)
Definition members_in_order (M : gmap string bytes) : list (string * bytes) :=
  (fun name => (name, default [] (M !! name))) <$> sorted (listdir M).

(** ** Records of a VER1 directory *)

(** Record [i] of a store has a nonzero start sector and a nonzero size. *)
Definition live_at (d : bytes) (i : Z) : Prop :=
  exists s z,
    unpack_u32 (slice d (32 * i) 4) = Ok s
    /\ unpack_u32 (slice d (32 * i + 4) 4) = Ok z
    /\ 0 < s /\ 0 < z.

(** Record [i] of a store is the terminator. *)
Definition end_at (d : bytes) (i : Z) : Prop :=
  unpack_u32 (slice d (32 * i) 4) = Ok 0
  /\ unpack_u32 (slice d (32 * i + 4) 4) = Ok 0.

(** ** The round trip as the claim states it *)

(** The round trip as the claim states it: names of at most 24 ASCII
    characters and payloads of any size, the empty one included. *)
Definition round_trip_as_stated : Prop :=
  forall (fs : filesystem) (format_type : img_format)
         (img_file input_dir output_dir : string) (M : gmap string bytes),
    fs !! input_dir = Some (Dir M) ->
    format_type <> INVALID ->
    map_Forall (fun name data =>
                  str_len name <= 24
                  /\ encode_ascii name = Ok (list_byte_of_string name)
                  /\ 0 <= getsize data) M ->
    isdir fs img_file = false ->
    output_dir <> img_file ->
    isfile fs output_dir = false ->
    dir_files fs output_dir = ∅ ->
    (extract_img (create_img fs format_type img_file input_dir).2
                 img_file output_dir).2 !! output_dir = Some (Dir M).

(** ** Fixtures *)

(** A directory record of a one-byte member at sector 1 with an empty name
    field, and a store of 10001 such records. *)
Definition live_record : bytes :=
  [x01; x00; x00; x00; x01; x00; x00; x00] ++ replicate 24 x00.

Definition crowded_store : bytes :=
  mjoin (replicate (Z.to_nat 10001) live_record).

(** The two members of the scenario: [a.dat] of 10 bytes and [b.dat] of
    5000 bytes. *)
Definition two_files : gmap string bytes :=
  <["b.dat" := replicate 5000 x42]> (<["a.dat" := replicate 10 x41]> ∅).

(** The file system after building [x.img] from them in layout VER2. *)
Definition scenario_fs : filesystem :=
  (create_img (<["in" := Dir two_files]> ∅) VER2 "x.img" "in").2.

(** The VER2 archive without members: the magic and a count of 0. *)
Definition empty_archive : bytes := VER2_magic ++ [x00; x00; x00; x00].

(** A VER2 header that announces five entries, and nothing after it. *)
Definition headless_store : bytes := VER2_magic ++ [x05; x00; x00; x00].

(** A VER2 store with one entry whose name field is [a], NUL, [b] and NUL
    fill, of size 3 at sector 1. *)
Definition shadowed_name_store : bytes :=
  VER2_magic ++ [x01; x00; x00; x00]
  ++ [x01; x00; x00; x00; x03; x00; x00; x00]
  ++ [x61; x00; x62] ++ replicate 21 x00
  ++ replicate 2008 x00 ++ [x41; x42; x43].

(** A directory with an empty file. *)
Definition with_empty_file : gmap string bytes :=
  <["b.dat" := []]> (<["a.dat" := replicate 10 x41]> ∅).

(** A directory whose only file has a name that begins with a space. *)
Definition padded_name_file : gmap string bytes := <[" a" := [x41]]> ∅.

(** A payload that reads as a directory record: start sector 1, size 1,
    name [zz]. *)
Definition looks_like_record : bytes :=
  le32 1 ++ le32 1 ++ [x7a; x7a] ++ replicate 22 x00.

(** A directory of 64 files with one-character names from [0] on; the first
    in order holds [looks_like_record], the others one byte. *)
Definition full_table : gmap string bytes :=
  list_to_map
    ((fun i : nat =>
        (String (ascii_of_nat (48 + i)) EmptyString,
         if Nat.eqb i 0 then looks_like_record else [x41]))
       <$> seq 0 64).

(** ** Directories the builder and the reader handle *)

(** A directory the builder turns into an archive laid out as [store_of]:
    a layout token, at least one member, good members only, and start
    sectors that fit 32 bits. *)
Definition buildable (format_type : img_format) (M : gmap string bytes) : Prop :=
  format_type <> INVALID
  /\ M <> ∅
  /\ map_Forall (fun name data => good_member (name, data)) M
  /\ sectors_fit (members_in_order M)
                 (data_start_sector_of format_type (Z.of_nat (size M))).

(** A directory whose archive the reader recognises and counts: in layout
    VER1 the scan for the end of the table needs a terminator after it and
    stops at its bound. *)
Definition readable (format_type : img_format) (M : gmap string bytes) : Prop :=
  buildable format_type M
  /\ (format_type = VER1 ->
      Z.of_nat (size M) <= 10001 /\ Z.of_nat (size M) `mod` 64 <> 0).

(** The archive the builder makes of a directory. *)
Definition archive_of (format_type : img_format) (M : gmap string bytes)
  : bytes :=
  store_of format_type (members_in_order M).

(** The archive at a path is one the tool reads: it is recognised in the
    given layout, its entry count is resolved, and extraction makes the
    given files of it. *)
Definition archive_holds (fs : filesystem) (img_file : string)
    (format_type : img_format) (M : gmap string bytes) : Prop :=
  detect_img_format fs img_file = format_type
  /\ format_type <> INVALID
  /\ (exists n, get_entry_count fs img_file format_type = Ok n)
  /\ archive_members fs img_file = M.

(** Sectors and bytes of the payloads, and the size of the last member. *)
Definition total_sectors (ms : list (string * bytes)) : Z :=
  foldr (fun m acc => sectors_needed (getsize m.2) + acc) 0 ms.

Definition total_size (ms : list (string * bytes)) : Z :=
  foldr (fun m acc => getsize m.2 + acc) 0 ms.

Definition last_size (ms : list (string * bytes)) : Z :=
  match last ms with Some m => getsize m.2 | None => 0 end.

(** ** The listing loop, entry by entry *)

(** One round of the listing loop with its [except] clause applied. *)
Definition list_step (fnmatch : string -> string -> bool)
    (filter_pattern : option string) (f : handle) (dir_start : Z)
    (rows : list row) (i : Z) : list row :=
  match list_entry fnmatch filter_pattern f dir_start i rows with
  | Ok rows' => rows'
  | _ => rows
  end.

(** A row the filter lets through: no pattern, the empty pattern, or a
    pattern the name matches. *)
Definition row_wanted (fnmatch : string -> string -> bool)
    (filter_pattern : option string) (r : row) : bool :=
  match filter_pattern with
  | Some pat => String.eqb pat "" || fnmatch r.1.1 pat
  | None => true
  end.

(** ** Patterns of a removal *)



(** ** Names as the directory loop records them *)

(** The name the directory loop records: a name of more than 24 characters
    is cut to its first 24. *)
Definition cut_name (filename : string) : string :=
  if 24 <? str_len filename then String.substring 0 24 filename else filename.

(** A member whose cut name is storable and whose payload is not empty and
    fits 32 bits. *)
Definition good_cut_member (m : string * bytes) : Prop :=
  storable_name (cut_name m.1) = true /\ 0 < getsize m.2 < 4294967296.

(** * Properties *)

(** ** Reading *)

Lemma slice_take_drop (data : bytes) (pos n : Z) :
  0 <= pos ->
  slice data pos n = take (Z.to_nat n) (drop (Z.to_nat pos) data).
Proof.
  intros Hpos. unfold slice.
  destruct (Z.leb_spec (Z.of_nat (length data)) pos) as [Hle|Hlt].
  - rewrite drop_ge by lia. by rewrite take_nil.
  - destruct (Z.le_gt_cases n (Z.of_nat (length data) - pos)) as [Hn|Hn].
    + by rewrite Z.min_l by lia.
    + rewrite Z.min_r by lia.
      rewrite !take_ge; [done | rewrite length_drop; lia ..].
Qed.

Lemma slice_length (data : bytes) (pos n : Z) :
  0 <= pos -> 0 <= n -> pos + n <= Z.of_nat (length data) ->
  length (slice data pos n) = Z.to_nat n.
Proof.
  intros. rewrite slice_take_drop by done.
  rewrite length_take, length_drop. lia.
Qed.

Lemma slice_Forall (P : byte -> Prop) (data : bytes) (pos n : Z) :
  Forall P data -> Forall P (slice data pos n).
Proof.
  intros H. unfold slice. case_match; [constructor|].
  by apply Forall_take, Forall_drop.
Qed.

Lemma slice_app_l (d1 d2 : bytes) (pos n : Z) :
  0 <= pos -> 0 <= n -> pos + n <= Z.of_nat (length d1) ->
  slice (d1 ++ d2) pos n = slice d1 pos n.
Proof.
  intros. rewrite !slice_take_drop by done.
  rewrite drop_app_le by lia. rewrite take_app_le; [done|].
  rewrite length_drop. lia.
Qed.

Lemma slice_app_r (d1 d2 : bytes) (pos n : Z) :
  Z.of_nat (length d1) <= pos ->
  slice (d1 ++ d2) pos n = slice d2 (pos - Z.of_nat (length d1)) n.
Proof.
  intros. rewrite !slice_take_drop by lia.
  rewrite drop_app_ge by lia. do 3 f_equal. lia.
Qed.

Lemma slice_all (d : bytes) (n : Z) :
  n = Z.of_nat (length d) -> slice d 0 n = d.
Proof.
  intros ->. rewrite slice_take_drop by done.
  rewrite Nat2Z.id. change (Z.to_nat 0) with 0%nat.
  rewrite drop_0. by rewrite take_ge.
Qed.

Lemma slice_slice (data : bytes) (pos m a n : Z) :
  0 <= pos -> 0 <= a -> 0 <= n -> a + n <= m ->
  slice (slice data pos m) a n = slice data (pos + a) n.
Proof.
  intros. rewrite !slice_take_drop by lia.
  rewrite (take_drop_commute _ (Z.to_nat n) (Z.to_nat a)), take_take.
  rewrite Nat.min_l by lia.
  rewrite <- take_drop_commute, drop_drop. do 2 f_equal. lia.
Qed.

Lemma record_fields (d p1 p2 nf : bytes) (off : Z) :
  0 <= off ->
  slice d off 32 = p1 ++ p2 ++ nf ->
  length p1 = 4%nat -> length p2 = 4%nat -> length nf = 24%nat ->
  slice d off 4 = p1 /\ slice d (off + 4) 4 = p2 /\ slice d (off + 8) 24 = nf.
Proof.
  intros Hoff Hrec H1 H2 H3.
  replace (slice d off 4) with (slice d (off + 0) 4) by (f_equal; lia).
  rewrite <- !(slice_slice d off 32) by lia. rewrite Hrec.
  split; [|split].
  - rewrite slice_app_l by lia. apply slice_all. lia.
  - rewrite slice_app_r by lia. rewrite H1.
    rewrite slice_app_l by lia. apply slice_all. lia.
  - rewrite slice_app_r by lia. rewrite H1.
    rewrite slice_app_r by lia. rewrite H2. apply slice_all. lia.
Qed.

Lemma detect_img_format_ext (fs fs' : filesystem) (p : string) :
  fs !! p = fs' !! p -> detect_img_format fs p = detect_img_format fs' p.
Proof. unfold detect_img_format. by intros ->. Qed.

Lemma detect_img_format_valid_file (fs : filesystem) (p : string) :
  detect_img_format fs p <> INVALID -> exists data, fs !! p = Some (File data).
Proof.
  unfold detect_img_format.
  destruct (fs !! p) as [[data|d]|]; [by exists data | done | done].
Qed.

Lemma get_entry_count_ext (fs fs' : filesystem) (p : string) fmt :
  fs !! p = fs' !! p -> get_entry_count fs p fmt = get_entry_count fs' p fmt.
Proof. unfold get_entry_count. by intros ->. Qed.

(** ** Detection *)

(** C10: a path that does not name an existing regular file is classified
    [INVALID]; detection is a total function of the file system and the
    path and raises nothing. *)
Theorem detect_img_format_not_a_file (fs : filesystem) (p : string) :
  isfile fs p = false -> detect_img_format fs p = INVALID.
Proof.
  unfold isfile, detect_img_format.
  destruct (fs !! p) as [[data|d]|]; [discriminate | done | done].
Qed.

Lemma detect_img_format_not_a_file_witness :
  isfile (<["models" := Dir ∅]> ∅) "models" = false
  /\ detect_img_format (<["models" := Dir ∅]> ∅) "models" = INVALID.
Proof.
  split; [reflexivity|].
  apply (detect_img_format_not_a_file (<["models" := Dir ∅]> ∅) "models").
  reflexivity.
Defined.

Lemma unpack_u32_zero (b : bytes) :
  length b = 4%nat -> Forall (eq x00) b -> unpack_u32 b = Ok 0.
Proof.
  intros Hlen Hz.
  destruct b as [|b0 [|b1 [|b2 [|b3 [|? ?]]]]]; try discriminate.
  repeat match goal with H : Forall _ (_ :: _) |- _ =>
    apply Forall_cons in H; destruct H as [<- H] end.
  reflexivity.
Qed.

(** C4 (as amended): a store made of zero bytes only, and a store shorter
    than 32 bytes that does not begin with the magic ["VER2"], is
    classified [INVALID]. *)
Theorem detect_img_format_zero_or_short (fs : filesystem) (p : string)
    (data : bytes) :
  fs !! p = Some (File data) ->
  Forall (eq x00) data
  \/ ((length data < 32)%nat /\ take 4 data <> VER2_magic) ->
  detect_img_format fs p = INVALID.
Proof.
  intros Hp Hcase. unfold detect_img_format. rewrite Hp. cbn.
  assert (Hsig : slice data 0 4 <> VER2_magic).
  { destruct Hcase as [Hz|[_ Hne]].
    - intros Heq. pose proof (slice_Forall _ data 0 4 Hz) as Hs.
      rewrite Heq in Hs. apply Forall_cons in Hs as [Hs _]. discriminate.
    - by rewrite slice_take_drop by done. }
  rewrite bool_decide_eq_false_2 by done.
  unfold getsize.
  destruct (Z.ltb_spec (Z.of_nat (length data)) 32) as [|Hlen]; [done|].
  destruct Hcase as [Hz|[Hshort _]]; [|lia].
  rewrite (unpack_u32_zero (slice data 0 4)).
  - cbn. by destruct (unpack_u32 _).
  - rewrite slice_length; lia.
  - by apply slice_Forall.
Qed.

Lemma detect_img_format_zero_or_short_witness :
  (Forall (eq x00) (replicate 40 x00)
   \/ ((length (replicate 40 x00) < 32)%nat
       /\ take 4 (replicate 40 x00) <> VER2_magic))
  /\ detect_img_format (<["z.img" := File (replicate 40 x00)]> ∅) "z.img"
     = INVALID.
Proof.
  split; [left; by apply Forall_replicate|].
  apply (detect_img_format_zero_or_short _ "z.img" (replicate 40 x00)).
  - reflexivity.
  - left. by apply Forall_replicate.
Defined.

(** C4, as stated, fails: the empty VER2 archive, a header of eight bytes
    that counts no entries, is shorter than 32 bytes; it is classified
    [VER2] and its entry count is 0. *)
Lemma detect_img_format_short_ver2 :
  (length empty_archive < 32)%nat
  /\ detect_img_format (<["e.img" := File empty_archive]> ∅) "e.img" = VER2
  /\ get_entry_count (<["e.img" := File empty_archive]> ∅) "e.img" VER2 = Ok 0
  /\ ~ (forall (fs : filesystem) (p : string) (data : bytes),
          fs !! p = Some (File data) ->
          Forall (eq x00) data \/ (length data < 32)%nat ->
          detect_img_format fs p = INVALID).
Proof.
  assert (Hd : detect_img_format (<["e.img" := File empty_archive]> ∅) "e.img"
               = VER2) by reflexivity.
  split; [simpl; lia|]. split; [exact Hd|]. split; [reflexivity|].
  intros H.
  rewrite (H _ "e.img" empty_archive) in Hd;
    [discriminate | reflexivity | right; simpl; lia].
Qed.

(** ** The VER1 entry count *)

(** The scan ends within the fuel it is given, and counts between the
    entries it started with and 10001. *)
Lemma scan_ver1_terminates (fuel : nat) (f : handle)
    (file_size entry_count offset : Z) :
  file_size - offset <= 32 * Z.of_nat fuel ->
  entry_count <= 10000 ->
  exists n, scan_ver1 fuel f file_size entry_count offset = Some n
            /\ entry_count <= n <= 10001.
Proof.
  revert f entry_count offset.
  induction fuel as [|fuel IH]; intros f entry_count offset Hfuel Hcount.
  - simpl. destruct (Z.ltb_spec offset file_size); [lia|].
    exists entry_count. split; [done | lia].
  - cbn [scan_ver1].
    destruct (Z.ltb_spec offset file_size); cbn [negb];
      [| exists entry_count; split; [done | lia]].
    cbn [f_read f_seek h_data h_pos].
    destruct (unpack_u32 _) as [file_offset| |];
      [| exists entry_count; split; [done | lia] ..].
    destruct (unpack_u32 _) as [file_size_entry| |];
      [| exists entry_count; split; [done | lia] ..].
    destruct (_ && _); [exists entry_count; split; [done | lia]|].
    destruct (_ && _); [| exists entry_count; split; [done | lia]].
    destruct (Z.ltb_spec 10000 (entry_count + 1)).
    + exists (entry_count + 1). split; [done | lia].
    + destruct (IH (Handle (h_data f)
                     (offset + Z.of_nat (length (slice (h_data f) offset 4))
                      + Z.of_nat (length (slice (h_data f)
                          (offset + Z.of_nat (length (slice (h_data f) offset 4)))
                          4))))
                   (entry_count + 1) (offset + 32)) as (n & Hn & Hb);
        [lia | lia |].
      exists n. split; [exact Hn | lia].
Qed.

(** The entry count is always resolved: the fuel of the model suffices. *)
Lemma get_entry_count_ver1_total (fs : filesystem) (p : string) (data : bytes) :
  fs !! p = Some (File data) ->
  exists n, get_entry_count fs p VER1 = Ok n /\ 0 <= n <= 10001.
Proof.
  intros Hp. unfold get_entry_count. rewrite Hp.
  destruct (scan_ver1_terminates (S (length data)) (open_rb data)
              (getsize data) 0 0) as (n & -> & Hn); [unfold getsize; lia | lia|].
  by exists n.
Qed.


(** A store of [k] copies of the live record. *)
Lemma records_S (k : nat) :
  mjoin (replicate (S k) live_record)
  = live_record ++ mjoin (replicate k live_record).
Proof. reflexivity. Qed.

Lemma records_length (k : nat) :
  length (mjoin (replicate k live_record)) = (32 * k)%nat.
Proof.
  induction k as [|k IH]; [done|].
  rewrite records_S, length_app, IH. simpl. lia.
Qed.

Lemma records_slice (k j : nat) :
  (j < k)%nat ->
  slice (mjoin (replicate k live_record)) (32 * Z.of_nat j) 32 = live_record.
Proof.
  revert j. induction k as [|k IH]; intros j Hj; [lia|].
  rewrite records_S. destruct j as [|j].
  - rewrite slice_app_l by (simpl; lia). reflexivity.
  - rewrite slice_app_r by (simpl; lia).
    replace (32 * Z.of_nat (S j) - Z.of_nat (length live_record))
      with (32 * Z.of_nat j) by (simpl; lia).
    apply IH. lia.
Qed.

(** ** The extraction loop *)

Lemma unpack_u32_cases (b : bytes) :
  (exists v, unpack_u32 b = Ok v) \/ unpack_u32 b = Raise StructError.
Proof.
  unfold unpack_u32.
  destruct b as [|b0 [|b1 [|b2 [|b3 [|? ?]]]]]; eauto.
Qed.

(** The shape of one [try] block: an unreadable record raises
    [struct.error], an empty slot is passed over, and a live entry is
    written unless its name cannot be created. *)
Lemma extract_entry_cases (f : handle) (dir_start i : Z) (st : extraction) :
  extract_entry f dir_start i st = Raise StructError
  \/ extract_entry f dir_start i st = Raise OSError
  \/ extract_entry f dir_start i st = Ok st
  \/ exists name data,
       extract_entry f dir_start i st
       = Ok (Extraction (<[name := data]> (ex_files st))
                        (ex_written st ++ [name])).
Proof.
  unfold extract_entry. cbn [f_read f_seek h_data h_pos].
  destruct (unpack_u32_cases (slice (h_data f) (dir_start + i * 32) 4))
    as [[v1 ->]| ->]; [|by left].
  cbn [mbind result_bind].
  match goal with |- context [unpack_u32 ?b] =>
    destruct (unpack_u32_cases b) as [[v2 ->]| ->]; [|by left] end.
  cbn [mbind result_bind].
  destruct (_ || _); [by right; right; left|].
  unfold write_file. destruct (plain_name _); cbn [mbind result_bind].
  - right; right; right. eauto.
  - by right; left.
Qed.

Lemma extract_entry_raises (f : handle) (dir_start i : Z) (st : extraction) :
  match extract_entry f dir_start i st with
  | Ok _ | Raise StructError | Raise OSError => True
  | _ => False
  end.
Proof.
  destruct (extract_entry_cases f dir_start i st)
    as [-> | [-> | [-> | (? & ? & ->)]]]; done.
Qed.

Lemma except_continue_extract (f : handle) (dir_start i : Z) (st : extraction) :
  except_continue (extract_entry f dir_start i st) st
  = Ok (extract_step f dir_start st i).
Proof.
  unfold extract_step. pose proof (extract_entry_raises f dir_start i st) as H.
  destruct (extract_entry f dir_start i st) as [st'|[| |]|]; done.
Qed.

Lemma for_each_total {S : Type} (body : Z -> S -> result S)
    (step : S -> Z -> S) (l : list Z) (st : S) :
  (forall i st, body i st = Ok (step st i)) ->
  for_each body l st = Ok (foldl step st l).
Proof.
  intros Hbody. revert st.
  induction l as [|i l IH]; intros st; [done|].
  cbn [for_each foldl]. rewrite Hbody. apply IH.
Qed.

Lemma extract_loop_fold (f : handle) (dir_start entry_count : Z)
    (st : extraction) :
  extract_loop f dir_start entry_count st
  = Ok (foldl (extract_step f dir_start) st (seqZ 0 entry_count)).
Proof.
  unfold extract_loop. apply for_each_total.
  intros i st'. apply except_continue_extract.
Qed.

Lemma extract_step_written (f : handle) (dir_start i : Z) (st : extraction) :
  (length (ex_written st) <= length (ex_written (extract_step f dir_start st i))
   <= S (length (ex_written st)))%nat.
Proof.
  unfold extract_step.
  destruct (extract_entry_cases f dir_start i st)
    as [-> | [-> | [-> | (? & ? & ->)]]]; cbn [ex_written]; try lia.
  rewrite length_app. simpl. lia.
Qed.

Lemma extract_fold_written (f : handle) (dir_start : Z) (l : list Z)
    (st : extraction) :
  (length (ex_written st)
   <= length (ex_written (foldl (extract_step f dir_start) st l))
   <= length (ex_written st) + length l)%nat.
Proof.
  revert st. induction l as [|i l IH]; intros st; [simpl; lia|].
  cbn [foldl]. specialize (IH (extract_step f dir_start st i)).
  pose proof (extract_step_written f dir_start i st). simpl. lia.
Qed.

(** What a call on a recognised store with a readable entry count does. *)
Lemma extract_img_log_valid (fs : filesystem) (img_file output_dir : string)
    (data : bytes) (n : Z) :
  fs !! img_file = Some (File data) ->
  isfile fs output_dir = false ->
  detect_img_format fs img_file <> INVALID ->
  get_entry_count fs img_file (detect_img_format fs img_file) = Ok n ->
  let st := foldl (extract_step (open_rb data)
                     (dir_start_of (detect_img_format fs img_file)))
                  (Extraction (dir_files fs output_dir) []) (seqZ 0 n) in
  extract_img_log fs img_file output_dir
  = (Ok true, <[output_dir := Dir (ex_files st)]> fs, ex_written st).
Proof.
  intros Himg Hout Hfmt Hcount st. subst st.
  assert (Hne : output_dir <> img_file).
  { intros ->. unfold isfile in Hout. by rewrite Himg in Hout. }
  unfold extract_img_log, dir_files. rewrite Himg.
  unfold isfile in Hout.
  destruct (fs !! output_dir) as [[?|out]|]; [done| |].
  all: rewrite (detect_img_format_ext _ fs) by by rewrite lookup_insert_ne.
  all: rewrite (get_entry_count_ext _ fs) by by rewrite lookup_insert_ne.
  all: rewrite Hcount, extract_loop_fold, insert_insert_eq.
  all: by destruct (detect_img_format fs img_file).
Qed.

(** ** What extraction returns *)

(** C3, as stated, fails: on the two-member archive extraction writes two
    members and returns [True], which is 1 as a number. *)
Lemma extract_img_flag_is_not_count :
  (extract_img scenario_fs "x.img" "out").1 = Ok true
  /\ members_written scenario_fs "x.img" "out" = 2
  /\ ~ (forall (fs : filesystem) (img_file output_dir : string) (b : bool),
          (extract_img fs img_file output_dir).1 = Ok b ->
          Z.b2z b = members_written fs img_file output_dir).
Proof.
  assert (H1 : (extract_img scenario_fs "x.img" "out").1 = Ok true)
    by by vm_compute.
  assert (H2 : members_written scenario_fs "x.img" "out" = 2) by by vm_compute.
  split; [done|]. split; [done|].
  intros H. specialize (H scenario_fs "x.img" "out" true H1).
  rewrite H2 in H. discriminate.
Qed.

(** C3 (as amended): extraction returns a success flag, not a count.  With a
    destination that is not a regular file, it returns [False] and writes
    nothing when the store is classified [INVALID]; it returns [True] when
    the store is classified VER1 or VER2 and the entry count is resolved,
    and the number of members written then lies between 0 and that
    count. *)
Theorem extract_img_returns_flag (fs : filesystem) (img_file output_dir : string) :
  isfile fs output_dir = false ->
  (detect_img_format fs img_file = INVALID ->
     (extract_img fs img_file output_dir).1 = Ok false
     /\ members_written fs img_file output_dir = 0)
  /\ (forall n,
        detect_img_format fs img_file <> INVALID ->
        get_entry_count fs img_file (detect_img_format fs img_file) = Ok n ->
        (extract_img fs img_file output_dir).1 = Ok true
        /\ 0 <= members_written fs img_file output_dir <= Z.max 0 n).
Proof.
  intros Hout. split.
  - intros Hinv. unfold members_written, extract_img, extract_img_log.
    destruct (fs !! img_file) as [[data|]|] eqn:Himg; [|done..].
    unfold isfile in Hout.
    destruct (fs !! output_dir) as [[?|out]|] eqn:Ho; [done| |].
    all: rewrite (detect_img_format_ext _ fs), Hinv; [done|].
    all: rewrite lookup_insert_ne; [done|congruence].
  - intros n Hfmt Hcount.
    destruct (detect_img_format_valid_file fs img_file Hfmt) as [data Himg].
    unfold members_written, extract_img.
    rewrite (extract_img_log_valid fs img_file output_dir data n) by done.
    cbn [fst snd]. split; [done|].
    pose proof (extract_fold_written (open_rb data)
                  (dir_start_of (detect_img_format fs img_file)) (seqZ 0 n)
                  (Extraction (dir_files fs output_dir) [])) as Hw.
    rewrite length_seqZ in Hw. cbn [ex_written length] in Hw. lia.
Qed.

Lemma extract_img_returns_flag_witness :
  isfile scenario_fs "out" = false
  /\ (extract_img scenario_fs "x.img" "out").1 = Ok true
  /\ 0 <= members_written scenario_fs "x.img" "out" <= Z.max 0 2.
Proof.
  split; [reflexivity|].
  apply (extract_img_returns_flag scenario_fs "x.img" "out");
    [reflexivity | by vm_compute | by vm_compute].
Defined.

(** ** Entries that cannot be read *)


Lemma unpack_u32_short (b : bytes) :
  (length b < 4)%nat -> unpack_u32 b = Raise StructError.
Proof.
  destruct b as [|b0 [|b1 [|b2 [|b3 [|? ?]]]]]; simpl; try done; lia.
Qed.




(** ** The report *)

(** C5, at the two-member VER2 archive (10240 bytes, payloads of 10 and
    5000 bytes): the report gives an overhead of -10 bytes and an efficiency
    of 100 percent, where the store's size minus the payload sum is 5230 and
    the payload sum times 100 over the store's size is 48.  The summing loop
    assigns each entry's size to [file_size], the variable that held the
    size of the store. *)
Theorem info_img_overhead_uses_last_entry_size :
  exists r : report,
    info_img scenario_fs "x.img" = Ok (true, Some r)
    /\ rep_size r = 10240
    /\ rep_total_data_size r = 5010
    /\ rep_overhead r = -10
    /\ rep_size r - rep_total_data_size r = 5230
    /\ rep_efficiency r = Some 100
    /\ (rep_total_data_size r * 100) / rep_size r = 48.
Proof.
  eexists. split; [by vm_compute|]. by vm_compute.
Qed.

(** ** Names in listings *)

(** C7, at a name field with bytes after its first NUL: extraction decodes
    the name [a], the listing decodes the three characters [a], NUL, [b].
    The listing strips trailing NUL bytes only; it neither cuts at the
    first NUL nor trims white space. *)
Theorem list_img_filtered_decodes_another_name
    (fnmatch : string -> string -> bool) :
  (extract_img_log (<["s.img" := File shadowed_name_store]> ∅)
                   "s.img" "out").2 = ["a"%string]
  /\ list_img_filtered fnmatch (<["s.img" := File shadowed_name_store]> ∅)
                       "s.img" None
     = (Ok true,
        [(String "a" (String "000" (String "b" EmptyString)), 3, 1)]).
Proof.
  split; by vm_compute.
Qed.

(** ** Renaming *)





(** ** Packing *)

Lemma byte_val_of_Z (z : Z) : byte_val (byte_of_Z z) = z `mod` 256.
Proof.
  unfold byte_val, byte_of_Z.
  pose proof (Z.mod_pos_bound z 256 eq_refl) as Hb.
  destruct (Byte.of_N (Z.to_N (z `mod` 256))) as [b|] eqn:Hof.
  - apply Byte.to_of_N in Hof. rewrite Hof. lia.
  - apply Byte.of_N_None_iff in Hof. lia.
Qed.

Lemma byte_val_bound (b : byte) : 0 <= byte_val b < 256.
Proof. unfold byte_val. pose proof (Byte.to_N_bounded b). lia. Qed.

Lemma pack_u32_ok (x : Z) :
  0 <= x < 4294967296 -> pack_u32 x = Ok (le32 x).
Proof.
  intros Hx. unfold pack_u32.
  destruct (Z.leb_spec 0 x); [|lia].
  by destruct (Z.ltb_spec x 4294967296); [|lia].
Qed.

Lemma unpack_le32 (x : Z) :
  0 <= x < 4294967296 -> unpack_u32 (le32 x) = Ok x.
Proof.
  intros Hx. cbn [unpack_u32 le32]. rewrite !byte_val_of_Z. f_equal.
  Z.div_mod_to_equations. lia.
Qed.

Lemma pack_u32_length (x : Z) (b : bytes) :
  pack_u32 x = Ok b -> length b = 4%nat.
Proof.
  unfold pack_u32. case_match; [|done]. by intros [= <-].
Qed.

(** ** The layout the builder writes *)

Lemma f_write_inside (b A X B : bytes) (f : handle) :
  h_data f = A ++ X ++ B ->
  h_pos f = Z.of_nat (length A) ->
  length X = length b ->
  f_write b f = Handle (A ++ b ++ B) (h_pos f + Z.of_nat (length b)).
Proof.
  intros Hd Hp Hlen. destruct f as [d p]. cbn [h_data h_pos] in *. subst d p.
  unfold f_write. cbn [h_data h_pos].
  destruct b as [|c b].
  { destruct X; [|done]. simpl. by rewrite Z.add_0_r. }
  rewrite Nat2Z.id.
  replace (length A - length (A ++ X ++ B))%nat with 0%nat
    by (rewrite length_app; lia).
  cbn [replicate]. rewrite app_nil_r.
  rewrite take_app_length, <- drop_drop, drop_app_length.
  by rewrite drop_app_length'.
Qed.

Lemma record_bytes_length (sector filesize : Z) (name : string) :
  length (record_bytes sector filesize name) = 32%nat.
Proof.
  unfold record_bytes, ljust. rewrite !length_app, length_replicate.
  rewrite length_take. change (length (le32 sector)) with 4%nat.
  change (length (le32 filesize)) with 4%nat. lia.
Qed.

Lemma dir_bytes_length (ms : list (string * bytes)) (sector : Z) :
  length (dir_bytes ms sector) = (32 * length ms)%nat.
Proof.
  revert sector. induction ms as [|[name data] ms IH]; intros sector; [done|].
  cbn [dir_bytes]. rewrite length_app, record_bytes_length, IH. simpl. lia.
Qed.

Lemma write_record (A B b1 b2 b3 : bytes) (f : handle) (off : Z) :
  h_data f = A ++ replicate 32 x00 ++ B ->
  off = Z.of_nat (length A) ->
  length b1 = 4%nat -> length b2 = 4%nat -> length b3 = 24%nat ->
  f_write b3 (f_write b2 (f_write b1 (f_seek off f)))
  = Handle (A ++ (b1 ++ b2 ++ b3) ++ B) (off + 32).
Proof.
  intros Hd Hoff H1 H2 H3.
  rewrite (f_write_inside b1 A (replicate 4 x00)
             (replicate 4 x00 ++ replicate 24 x00 ++ B) (f_seek off f));
    [| cbn [f_seek h_data]; rewrite Hd; reflexivity | done | by rewrite H1].
  rewrite (f_write_inside b2 (A ++ b1) (replicate 4 x00) (replicate 24 x00 ++ B));
    [| cbn [h_data]; by rewrite <- !app_assoc
     | cbn [h_pos f_seek]; rewrite length_app; lia
     | by rewrite H2].
  rewrite (f_write_inside b3 (A ++ b1 ++ b2) (replicate 24 x00) B);
    [| cbn [h_data]; by rewrite <- !app_assoc
     | cbn [h_pos f_seek]; rewrite !length_app; lia
     | by rewrite H3].
  cbn [h_pos f_seek]. rewrite H1, H2, H3. f_equal.
  - by rewrite <- !app_assoc.
  - lia.
Qed.

Lemma sectors_needed_nonneg (filesize : Z) :
  0 <= filesize -> 0 <= sectors_needed filesize.
Proof.
  intros. unfold sectors_needed, SECTOR_SIZE.
  apply Z.div_pos; lia.
Qed.

(** The directory loop fills the zeroed table with the members' records and
    collects their [file_info]. *)
Lemma write_directory_layout (format_type : img_format)
    (input : gmap string bytes) (ms : list (string * bytes)) :
  forall (i sector : Z) (info : file_info) (A B : bytes) (f : handle),
    Forall (fun m => input !! m.1 = Some m.2 /\ recordable m) ms ->
    0 <= sector -> sectors_fit ms sector ->
    h_data f = A ++ replicate (32 * length ms) x00 ++ B ->
    Z.of_nat (length A) = header_size_of format_type + i * 32 ->
    exists p,
      write_directory format_type input ms.*1 i sector info f
      = (Ok (info ++ info_of ms sector),
         Handle (A ++ dir_bytes ms sector ++ B) p).
Proof.
  induction ms as [|[name data] ms IH];
    intros i sector info A B f Hms Hsec Hfit Hd HA.
  - exists (h_pos f). cbn. rewrite app_nil_r. destruct f; cbn in *. by subst.
  - apply Forall_cons in Hms as [[Hin (Hlen & Henc & Hsize)] Hms].
    cbn [fst snd] in Hin, Hlen, Henc, Hsize.
    destruct Hfit as [Hs Hfit].
    cbn [fmap list_fmap fst write_directory]. rewrite Hin.
    destruct (Z.ltb_spec 24 (str_len name)); [lia|].
    rewrite (pack_u32_ok sector) by lia.
    rewrite (pack_u32_ok (getsize data)) by (unfold getsize in *; lia).
    rewrite Henc.
    replace (32 * length ((name, data) :: ms))%nat
      with (32 + 32 * length ms)%nat in Hd by (simpl; lia).
    rewrite replicate_add, <- app_assoc in Hd.
    rewrite (write_record A (replicate (32 * length ms) x00 ++ B)
               (le32 sector) (le32 (getsize data))
               (ljust 24 (take 24 (list_byte_of_string name))) f);
      [| done | unfold header_size_of in HA; lia | done | done |].
    2:{ unfold ljust. rewrite length_app, length_replicate, length_take. lia. }
    edestruct (IH (i + 1) (sector + sectors_needed (getsize data))
                 (info ++ [(name, getsize data, sector)])
                 (A ++ record_bytes sector (getsize data) name) B
                 (Handle (A ++ (le32 sector ++ le32 (getsize data)
                                ++ ljust 24 (take 24 (list_byte_of_string name)))
                            ++ replicate (32 * length ms) x00 ++ B)
                         (match format_type with VER2 => 8 | _ => 0 end
                          + i * 32 + 32)))
      as [p Hp];
      [done | | done
       | cbn [h_data]; unfold record_bytes; by rewrite <- !app_assoc | |].
    + pose proof (sectors_needed_nonneg (getsize data)). unfold getsize in *. lia.
    + rewrite length_app, record_bytes_length. lia.
    + exists p. unfold sectors_needed in Hp. rewrite Hp.
      cbn [dir_bytes info_of]. by rewrite <- !app_assoc.
Qed.

Lemma f_write_end (b : bytes) (f : handle) :
  h_pos f = Z.of_nat (length (h_data f)) ->
  f_write b f = Handle (h_data f ++ b) (h_pos f + Z.of_nat (length b)).
Proof.
  intros Hp. destruct f as [d p]. cbn [h_data h_pos] in *. subst p.
  unfold f_write. cbn [h_data h_pos].
  destruct b as [|c b]; [by rewrite app_nil_r, Z.add_0_r|].
  rewrite Nat2Z.id, Nat.sub_diag. cbn [replicate]. rewrite app_nil_r.
  rewrite take_ge, drop_ge, app_nil_r by lia. done.
Qed.

Lemma f_write_hole (b : bytes) (f : handle) :
  b <> [] ->
  Z.of_nat (length (h_data f)) <= h_pos f ->
  f_write b f
  = Handle (h_data f
            ++ replicate (Z.to_nat (h_pos f) - length (h_data f)) x00 ++ b)
           (h_pos f + Z.of_nat (length b)).
Proof.
  intros Hb Hp. destruct f as [d p]. cbn [h_data h_pos] in *.
  unfold f_write. cbn [h_data h_pos].
  destruct b as [|c b]; [done|].
  rewrite take_ge, drop_ge, app_nil_r, <- app_assoc;
    [done | rewrite length_app, length_replicate; lia ..].
Qed.

Lemma write_padding (filesize : Z) (f : handle) :
  (if bool_decide (SECTOR_SIZE - filesize `mod` SECTOR_SIZE ≠ SECTOR_SIZE)
   then f_write (replicate (Z.to_nat (SECTOR_SIZE - filesize `mod` SECTOR_SIZE))
                           x00) f
   else f) = f_write (padding_of filesize) f.
Proof. unfold padding_of. by case_bool_decide. Qed.

(** At the end of the file, the payload loop appends each payload and its
    padding. *)
Lemma write_data_append (input : gmap string bytes)
    (ms : list (string * bytes)) :
  forall (sector : Z) (f : handle),
    Forall (fun m => input !! m.1 = Some m.2) ms ->
    h_pos f = Z.of_nat (length (h_data f)) ->
    write_data input (info_of ms sector) f
    = (Ok (), Handle (h_data f ++ payload_bytes ms)
                     (h_pos f + Z.of_nat (length (payload_bytes ms)))).
Proof.
  induction ms as [|[name data] ms IH]; intros sector f Hms Hp.
  - cbn. rewrite app_nil_r, Z.add_0_r. by destruct f.
  - apply Forall_cons in Hms as [Hin Hms]. cbn [fst snd] in Hin.
    cbn [info_of write_data payload_bytes]. rewrite Hin, write_padding.
    rewrite (f_write_end data f) by done.
    rewrite (f_write_end (padding_of (getsize data))) by
      (cbn [h_data h_pos]; rewrite length_app; lia).
    rewrite IH; [| done | cbn [h_data h_pos]; rewrite !length_app; lia].
    cbn [h_data h_pos]. rewrite <- !app_assoc. f_equal. f_equal.
    rewrite !length_app. lia.
Qed.

(** After a seek past the end, the first payload is written behind a hole
    of zero bytes. *)
Lemma write_data_layout (input : gmap string bytes)
    (ms : list (string * bytes)) (sector : Z) (f : handle) :
  Forall (fun m => input !! m.1 = Some m.2 /\ m.2 <> []) ms ->
  ms <> [] ->
  Z.of_nat (length (h_data f)) <= h_pos f ->
  exists p,
    write_data input (info_of ms sector) f
    = (Ok (),
       Handle (h_data f
               ++ replicate (Z.to_nat (h_pos f) - length (h_data f)) x00
               ++ payload_bytes ms) p).
Proof.
  intros Hms Hne Hp. destruct ms as [|[name data] ms]; [done|].
  apply Forall_cons in Hms as [[Hin Hdata] Hms]. cbn [fst snd] in Hin, Hdata.
  cbn [info_of write_data payload_bytes]. rewrite Hin, write_padding.
  rewrite (f_write_hole data f) by done.
  rewrite (f_write_end (padding_of (getsize data))) by
    (cbn [h_data h_pos]; rewrite !length_app, length_replicate; lia).
  rewrite write_data_append;
    [| by eapply Forall_impl; [exact Hms | intros ? []]
     | cbn [h_data h_pos]; rewrite !length_app, length_replicate; lia].
  eexists. cbn [h_data h_pos]. by rewrite <- !app_assoc.
Qed.

(** Arithmetic on the layout of a store: the header and the first data
    sector are taken as unknowns that the facts in the context relate. *)
Ltac layout_arith format_type n :=
  unfold dir_size_of, SECTOR_SIZE in *;
  generalize dependent (data_start_sector_of format_type n);
  generalize dependent (header_bytes format_type n);
  intros; lia.

Lemma header_bytes_length (format_type : img_format) (nfiles : Z) :
  Z.of_nat (length (header_bytes format_type nfiles))
  = header_size_of format_type.
Proof. by destruct format_type. Qed.

Lemma data_start_after_directory (format_type : img_format) (nfiles : Z) :
  dir_size_of format_type nfiles
  <= data_start_sector_of format_type nfiles * SECTOR_SIZE
  < dir_size_of format_type nfiles + SECTOR_SIZE.
Proof.
  unfold data_start_sector_of, SECTOR_SIZE.
  Z.div_mod_to_equations. lia.
Qed.

(** What follows the header: the zeroed table, the directory loop, the
    seek to the data region and the payload loop. *)
Lemma create_img_rest (format_type : img_format)
    (input : gmap string bytes) (ms : list (string * bytes)) (f : handle) :
  let n := Z.of_nat (length ms) in
  ms <> [] ->
  Forall (fun m => input !! m.1 = Some m.2 /\ recordable m /\ m.2 <> []) ms ->
  sectors_fit ms (data_start_sector_of format_type n) ->
  h_data f = header_bytes format_type n ->
  h_pos f = Z.of_nat (length (h_data f)) ->
  exists p,
    (let f := f_write (replicate (Z.to_nat (dir_size_of format_type n
                                           - header_size_of format_type)) x00)
                      f in
     match write_directory format_type input ms.*1 0
             (data_start_sector_of format_type n) [] f with
     | (Ok info, f) =>
         write_data input info
           (f_seek (data_start_sector_of format_type n * SECTOR_SIZE) f)
     | (Raise e, f) => (Raise e, f)
     | (OutOfFuel, f) => (OutOfFuel, f)
     end) = (Ok (), Handle (store_of format_type ms) p).
Proof.
  intros n Hne Hms Hfit Hd Hp. subst n. cbv zeta.
  set (n := Z.of_nat (length ms)) in *.
  assert (Hn : n = Z.of_nat (length ms)) by done. clearbody n.
  pose proof (data_start_after_directory format_type n) as Hds.
  pose proof (header_bytes_length format_type n) as Hh.
  rewrite (f_write_end _ f) by done. rewrite Hd.
  replace (Z.to_nat (dir_size_of format_type n - header_size_of format_type))
    with (32 * length ms)%nat by (unfold dir_size_of; lia).
  edestruct (write_directory_layout format_type input ms 0
               (data_start_sector_of format_type n) []
               (header_bytes format_type n) []
               (Handle (header_bytes format_type n
                        ++ replicate (32 * length ms) x00)
                       (h_pos f + Z.of_nat (length (replicate
                                                      (32 * length ms) x00)))))
    as [p1 Hdir]; [| | done | cbn [h_data]; by rewrite app_nil_r | |].
  { eapply Forall_impl; [exact Hms|]. by intros ? (? & ? & ?). }
  { unfold dir_size_of, SECTOR_SIZE in Hds. lia. }
  { rewrite Hh. lia. }
  rewrite Hdir. cbn [app]. rewrite app_nil_r.
  edestruct (write_data_layout input ms (data_start_sector_of format_type n)
               (f_seek (data_start_sector_of format_type n * SECTOR_SIZE)
                  (Handle (header_bytes format_type n
                           ++ dir_bytes ms (data_start_sector_of format_type n))
                          p1)))
    as [p2 Hdata]; [| done | |].
  { eapply Forall_impl; [exact Hms|]. by intros ? (? & ? & ?). }
  { cbn [f_seek h_data h_pos]. rewrite length_app, dir_bytes_length.
    layout_arith format_type n. }
  rewrite Hdata. exists p2. cbn [f_seek h_data h_pos]. unfold store_of.
  rewrite <- Hn. rewrite <- !app_assoc. do 4 f_equal.
  rewrite length_app, dir_bytes_length. do 2 f_equal.
  layout_arith format_type n.
Qed.

Lemma create_img_body_layout (format_type : img_format)
    (input : gmap string bytes) (ms : list (string * bytes)) :
  format_type <> INVALID ->
  ms <> [] ->
  Forall (fun m => input !! m.1 = Some m.2 /\ recordable m /\ m.2 <> []) ms ->
  Z.of_nat (length ms) < 4294967296 ->
  sectors_fit ms (data_start_sector_of format_type (Z.of_nat (length ms))) ->
  exists p,
    create_img_body format_type input ms.*1
    = (Ok (), Handle (store_of format_type ms) p).
Proof.
  intros Hfmt Hne Hms Hn Hfit.
  unfold create_img_body. rewrite length_fmap.
  destruct format_type; [| |done].
  - by apply (create_img_rest VER1 input ms open_wb).
  - cbv zeta. rewrite pack_u32_ok by lia.
    by apply (create_img_rest VER2 input ms
                (f_write (le32 (Z.of_nat (length ms)))
                   (f_write VER2_magic open_wb))).
Qed.

(** ** Reading the layout back *)

Lemma padded_length (data : bytes) :
  Z.of_nat (length (data ++ padding_of (getsize data)))
  = sectors_needed (getsize data) * SECTOR_SIZE.
Proof.
  rewrite length_app. unfold padding_of, sectors_needed, getsize, SECTOR_SIZE.
  case_bool_decide; [rewrite length_replicate|]; cbn [length];
    Z.div_mod_to_equations; lia.
Qed.

Lemma sector_at_ge (ms : list (string * bytes)) (sector : Z) (i : nat) :
  sector <= sector_at ms sector i.
Proof.
  revert sector i. induction ms as [|[name data] ms IH]; intros sector [|i];
    cbn [sector_at]; try lia.
  specialize (IH (sector + sectors_needed (getsize data)) i).
  pose proof (sectors_needed_nonneg (getsize data)). unfold getsize in *. lia.
Qed.

Lemma sector_at_fits (ms : list (string * bytes)) (sector : Z) (i : nat) :
  sectors_fit ms sector -> (i < length ms)%nat ->
  sector_at ms sector i < 4294967296.
Proof.
  revert sector i. induction ms as [|[name data] ms IH]; intros sector i Hfit Hi;
    [simpl in Hi; lia|].
  destruct Hfit as [Hs Hfit]. destruct i as [|i]; [done|].
  cbn [sector_at]. apply IH; [done | simpl in Hi; lia].
Qed.

Lemma dir_bytes_record (ms : list (string * bytes)) (sector : Z) (i : nat)
    (name : string) (data : bytes) :
  ms !! i = Some (name, data) ->
  slice (dir_bytes ms sector) (32 * Z.of_nat i) 32
  = record_bytes (sector_at ms sector i) (getsize data) name.
Proof.
  revert sector i. induction ms as [|[name' data'] ms IH]; intros sector i Hi;
    [done|].
  cbn [dir_bytes]. destruct i as [|i].
  - injection Hi as -> ->. cbn [sector_at].
    rewrite slice_app_l by (rewrite ?record_bytes_length; lia).
    apply slice_all. by rewrite record_bytes_length.
  - cbn [sector_at]. rewrite slice_app_r by (rewrite record_bytes_length; lia).
    rewrite record_bytes_length.
    replace (32 * Z.of_nat (S i) - Z.of_nat 32) with (32 * Z.of_nat i) by lia.
    by apply IH.
Qed.

Lemma payload_bytes_member (ms : list (string * bytes)) (sector : Z) (i : nat)
    (name : string) (data : bytes) :
  ms !! i = Some (name, data) ->
  slice (payload_bytes ms) ((sector_at ms sector i - sector) * SECTOR_SIZE)
        (getsize data) = data.
Proof.
  revert sector i. induction ms as [|[name' data'] ms IH]; intros sector i Hi;
    [done|].
  cbn [payload_bytes]. destruct i as [|i].
  - injection Hi as -> ->. cbn [sector_at]. rewrite Z.sub_diag. cbn [Z.mul].
    rewrite slice_app_l by (unfold getsize; lia).
    by apply slice_all.
  - cbn [sector_at]. rewrite app_assoc.
    pose proof (padded_length data') as Hpad.
    pose proof (sector_at_ge ms (sector + sectors_needed (getsize data')) i).
    pose proof (sectors_needed_nonneg (getsize data')).
    rewrite slice_app_r by (unfold getsize, SECTOR_SIZE in *; nia).
    rewrite Hpad.
    replace ((sector_at ms (sector + sectors_needed (getsize data')) i - sector)
             * SECTOR_SIZE - sectors_needed (getsize data') * SECTOR_SIZE)
      with ((sector_at ms (sector + sectors_needed (getsize data')) i
             - (sector + sectors_needed (getsize data'))) * SECTOR_SIZE) by lia.
    by apply IH.
Qed.

(** The records and the payloads of a built store, member by member. *)
Section store_reading.
Context (format_type : img_format) (ms : list (string * bytes)).

Lemma store_of_record (i : nat) (name : string) (data : bytes) :
  ms !! i = Some (name, data) ->
  slice (store_of format_type ms) (dir_start_of format_type + Z.of_nat i * 32) 32
  = record_bytes
      (sector_at ms (data_start_sector_of format_type (Z.of_nat (length ms))) i)
      (getsize data) name.
Proof.
  intros Hi. unfold store_of.
  pose proof (header_bytes_length format_type (Z.of_nat (length ms))) as Hh.
  pose proof (lookup_lt_Some _ _ _ Hi) as Hlt.
  assert (Hds : dir_start_of format_type = header_size_of format_type)
    by by destruct format_type.
  rewrite slice_app_r by lia. rewrite Hh, Hds.
  rewrite slice_app_l by (rewrite ?dir_bytes_length; lia).
  replace (header_size_of format_type + Z.of_nat i * 32
           - header_size_of format_type) with (32 * Z.of_nat i) by lia.
  by apply dir_bytes_record.
Qed.

Lemma store_of_member (i : nat) (name : string) (data : bytes) :
  ms !! i = Some (name, data) ->
  slice (store_of format_type ms)
        (sector_at ms (data_start_sector_of format_type (Z.of_nat (length ms))) i
         * SECTOR_SIZE) (getsize data) = data.
Proof.
  intros Hi. unfold store_of.
  set (n := Z.of_nat (length ms)).
  pose proof (header_bytes_length format_type n) as Hh.
  pose proof (data_start_after_directory format_type n) as Hds.
  pose proof (sector_at_ge ms (data_start_sector_of format_type n) i) as Hge.
  rewrite !app_assoc.
  assert (Hlen : Z.of_nat (length ((header_bytes format_type n
                   ++ dir_bytes ms (data_start_sector_of format_type n))
                   ++ replicate (Z.to_nat (data_start_sector_of format_type n
                                           * SECTOR_SIZE
                                           - dir_size_of format_type n)) x00))
                 = data_start_sector_of format_type n * SECTOR_SIZE).
  { rewrite !length_app, dir_bytes_length, length_replicate. subst n.
    layout_arith format_type (Z.of_nat (length ms)). }
  rewrite slice_app_r by (rewrite ?Hlen; unfold SECTOR_SIZE; lia).
  rewrite Hlen, <- Z.mul_sub_distr_r.
  by apply (payload_bytes_member ms _ i name).
Qed.

End store_reading.

(** ** Names that survive the directory *)

Lemma split_nul_first_fill (b : bytes) (k : nat) :
  ascii_text b = true -> split_nul_first (b ++ replicate k x00) = b.
Proof.
  induction b as [|c b IH]; intros Hb.
  - destruct k; [done|]. cbn. by rewrite bool_decide_eq_true_2.
  - cbn in Hb. apply andb_true_iff in Hb as [Hc Hb].
    cbn [app split_nul_first]. rewrite bool_decide_eq_false_2.
    + by rewrite IH.
    + intros ->. done.
Qed.

Lemma strip_clean (b : bytes) : no_outer_space b = true -> strip b = b.
Proof.
  unfold no_outer_space, strip, rstrip. intros [Hh Hl]%andb_true_iff.
  assert (Hlstrip : forall l : bytes,
            match head l with Some c => negb (is_space c) | None => true end
            = true -> lstrip is_space l = l).
  { intros [|c l]; [done|]. cbn. by intros ->%negb_true_iff. }
  rewrite (Hlstrip b) by done.
  rewrite Hlstrip; [apply reverse_involutive|].
  by rewrite head_reverse.
Qed.

Lemma filter_ascii_text (b : bytes) :
  ascii_text b = true -> List.filter (fun c => byte_val c <? 128) b = b.
Proof.
  induction b as [|c b IH]; [done|]. cbn.
  intros [[_ ->]%andb_true_iff Hb]%andb_true_iff. by rewrite IH.
Qed.

Lemma list_byte_of_string_length (s : string) :
  length (list_byte_of_string s) = String.length s.
Proof.
  unfold list_byte_of_string. rewrite length_map.
  induction s as [|c s IH]; [done|]. cbn. by rewrite IH.
Qed.

Lemma encode_ascii_text (s : string) :
  ascii_text (list_byte_of_string s) = true ->
  encode_ascii s = Ok (list_byte_of_string s).
Proof.
  intros Hs. unfold encode_ascii.
  replace (forallb _ _) with true; [done|]. symmetry.
  unfold ascii_text in Hs. rewrite forallb_forall in Hs |- *.
  intros c Hc. by apply Hs, andb_true_iff in Hc as [_ ?].
Qed.

Lemma decode_name_field (name : string) :
  storable_name name = true ->
  decode_ascii_ignore
    (strip (split_nul_first (ljust 24 (take 24 (list_byte_of_string name)))))
  = name.
Proof.
  unfold storable_name, str_len.
  intros [[[Hlen Htext]%andb_true_iff Hsp]%andb_true_iff _]%andb_true_iff.
  apply Z.leb_le in Hlen.
  rewrite take_ge by (rewrite list_byte_of_string_length; lia).
  unfold ljust. rewrite split_nul_first_fill, strip_clean by done.
  unfold decode_ascii_ignore. rewrite filter_ascii_text by done.
  apply string_of_list_byte_of_string.
Qed.

Lemma storable_name_recordable (name : string) (data : bytes) :
  storable_name name = true -> getsize data < 4294967296 ->
  recordable (name, data).
Proof.
  unfold storable_name, recordable. cbn [fst snd].
  intros [[[Hlen Htext]%andb_true_iff _]%andb_true_iff _]%andb_true_iff Hsz.
  apply Z.leb_le in Hlen. by rewrite encode_ascii_text.
Qed.

(** A live record with a storable name: the [try] block writes the
    member. *)
Lemma extract_entry_live (f : handle) (dir_start i sector size : Z)
    (name : string) (st : extraction) :
  0 <= dir_start + i * 32 ->
  slice (h_data f) (dir_start + i * 32) 32 = record_bytes sector size name ->
  0 <= sector < 4294967296 -> 0 < size < 4294967296 ->
  storable_name name = true ->
  extract_entry f dir_start i st
  = Ok (Extraction
          (<[name := slice (h_data f) (sector * SECTOR_SIZE) size]> (ex_files st))
          (ex_written st ++ [name])).
Proof.
  intros Hoff Hrec Hsector Hsize Hname.
  destruct (record_fields (h_data f) (le32 sector) (le32 size)
              (ljust 24 (take 24 (list_byte_of_string name)))
              (dir_start + i * 32) Hoff Hrec) as (E1 & E2 & E3); [done | done | |].
  { unfold ljust. rewrite length_app, length_replicate, length_take. lia. }
  unfold extract_entry. cbn [f_read f_seek h_data h_pos].
  rewrite E1. change (Z.of_nat (length (le32 sector))) with 4.
  rewrite E2. change (Z.of_nat (length (le32 size))) with 4.
  replace (dir_start + i * 32 + 4 + 4) with (dir_start + i * 32 + 8) by lia.
  rewrite E3, !unpack_le32 by lia. cbn [mbind result_bind].
  rewrite decode_name_field by done.
  assert (Hplain : plain_name name = true).
  { unfold storable_name in Hname. by apply andb_true_iff in Hname as [_ ?]. }
  assert (Hne : String.eqb name "" = false).
  { unfold plain_name in Hplain. by destruct (String.eqb name ""). }
  rewrite Hne. destruct (Z.eqb_spec size 0); [lia|]. cbn [orb].
  unfold write_file. by rewrite Hplain.
Qed.

(** ** Extracting what was built *)

Lemma foldl_indexed {A S : Type} (step : S -> Z -> S) (h : S -> A -> S)
    (l : list A) (st : S) :
  (forall (i : nat) a st, l !! i = Some a -> step st (Z.of_nat i) = h st a) ->
  foldl step st (seqZ 0 (Z.of_nat (length l))) = foldl h st l.
Proof.
  revert st. induction l as [|a l IH] using rev_ind; intros st Hstep; [done|].
  rewrite length_app, Nat.add_1_r, seqZ_S, !foldl_app. cbn [foldl].
  rewrite IH.
  - rewrite Z.add_0_l. apply Hstep.
    rewrite lookup_app_r by lia. by rewrite Nat.sub_diag.
  - intros i b st' Hi. apply Hstep. by apply lookup_app_l_Some.
Qed.

Lemma data_start_sector_nonneg (format_type : img_format) (n : Z) :
  0 <= n -> 0 <= data_start_sector_of format_type n.
Proof.
  intros Hn. pose proof (data_start_after_directory format_type n) as Hds.
  unfold dir_size_of, SECTOR_SIZE in Hds.
  assert (0 <= header_size_of format_type) by (destruct format_type; simpl; lia).
  lia.
Qed.

Lemma extract_fold_store (format_type : img_format)
    (ms : list (string * bytes)) (st : extraction) :
  Forall good_member ms ->
  sectors_fit ms (data_start_sector_of format_type (Z.of_nat (length ms))) ->
  foldl (extract_step (open_rb (store_of format_type ms))
                      (dir_start_of format_type))
        st (seqZ 0 (Z.of_nat (length ms)))
  = foldl write_member st ms.
Proof.
  intros Hms Hfit. apply foldl_indexed.
  intros i [name data] st' Hi.
  pose proof (lookup_lt_Some _ _ _ Hi) as Hlt.
  pose proof (proj1 (Forall_lookup _ _) Hms i _ Hi) as [Hname Hsize].
  cbn [fst snd] in Hname, Hsize.
  set (ds := data_start_sector_of format_type (Z.of_nat (length ms))) in *.
  pose proof (sector_at_ge ms ds i) as Hge.
  pose proof (sector_at_fits ms ds i Hfit Hlt) as Hlt32.
  pose proof (data_start_sector_nonneg format_type (Z.of_nat (length ms))
                ltac:(lia)) as Hds0. fold ds in Hds0.
  unfold extract_step.
  rewrite (extract_entry_live _ _ _ (sector_at ms ds i) (getsize data) name);
    [| destruct format_type; simpl; lia
     | by apply store_of_record | lia | done | done].
  cbn [open_rb h_data]. unfold write_member. cbn [fst snd].
  pose proof (store_of_member format_type ms i name data Hi) as Hmem.
  fold ds in Hmem. by rewrite Hmem.
Qed.

Lemma write_member_files (ms : list (string * bytes)) (st : extraction) :
  ex_files (foldl write_member st ms)
  = foldl (fun d m => <[m.1 := m.2]> d) (ex_files st) ms.
Proof.
  revert st. induction ms as [|m ms IH]; intros st; [done|].
  cbn [foldl]. by rewrite IH.
Qed.

Lemma write_member_written (ms : list (string * bytes)) (st : extraction) :
  ex_written (foldl write_member st ms) = ex_written st ++ ms.*1.
Proof.
  revert st. induction ms as [|m ms IH]; intros st.
  - by rewrite app_nil_r.
  - cbn [foldl]. rewrite IH. cbn. by rewrite <- app_assoc.
Qed.

(** Writing members that all come from one directory [M]: the names written
    take their content from [M], the others keep theirs. *)
Lemma foldl_insert_lookup (M : gmap string bytes) (ms : list (string * bytes))
    (d : gmap string bytes) (k : string) :
  Forall (fun m => M !! m.1 = Some m.2) ms ->
  foldl (fun d m => <[m.1 := m.2]> d) d ms !! k
  = if decide (k ∈ ms.*1) then M !! k else d !! k.
Proof.
  revert d. induction ms as [|[name data] ms IH]; intros d Hms.
  - cbn. by rewrite decide_False by apply not_elem_of_nil.
  - apply Forall_cons in Hms as [Hm Hms]. cbn [fst snd] in Hm.
    cbn [foldl fst snd]. rewrite IH by done.
    cbn [fmap list_fmap fst].
    destruct (decide (k ∈ ms.*1)) as [Hin|Hnin].
    + by rewrite decide_True by (apply elem_of_cons; auto).
    + destruct (decide (k = name)) as [->|Hne].
      * rewrite decide_True by (apply elem_of_cons; auto).
        by rewrite lookup_insert_eq.
      * rewrite decide_False by (rewrite elem_of_cons; intros [?|?]; done).
        by rewrite lookup_insert_ne.
Qed.

(** ** Counting the entries of a VER1 directory *)

Lemma unpack_u32_length (b : bytes) (v : Z) :
  unpack_u32 b = Ok v -> length b = 4%nat.
Proof. by destruct b as [|b0 [|b1 [|b2 [|b3 [|? ?]]]]]. Qed.

Lemma slice_length_le (d : bytes) (pos n : Z) :
  0 <= pos -> (length (slice d pos n) <= length d - Z.to_nat pos)%nat.
Proof.
  intros. rewrite slice_take_drop by done.
  rewrite length_take, length_drop. lia.
Qed.

(** From entry [j] on, the scan counts the live records up to the first
    terminator, or up to entry 10001. *)
Lemma scan_ver1_count (d : bytes) (n : Z) (fuel : nat) (p j : Z) :
  0 <= j <= n -> j <= 10000 -> n <= 10001 ->
  (forall i, j <= i < n -> live_at d i) ->
  (n <= 10000 -> Z.of_nat (length d) <= 32 * n \/ end_at d n) ->
  (Z.to_nat (n - j) < fuel)%nat ->
  scan_ver1 fuel (Handle d p) (Z.of_nat (length d)) j (32 * j) = Some n.
Proof.
  revert p j. induction fuel as [|fuel IH];
    intros p j Hj Hj' Hn Hlive Hend Hfuel; [lia|].
  cbn [scan_ver1].
  destruct (Z.ltb_spec (32 * j) (Z.of_nat (length d))) as [Hlt|Hge]; cbn [negb].
  - cbn [f_read f_seek h_data h_pos].
    destruct (Z.eq_dec j n) as [->|Hjn].
    + destruct (Hend ltac:(lia)) as [?|[E1 E2]]; [lia|].
      rewrite E1. rewrite (unpack_u32_length _ _ E1).
      change (Z.of_nat 4) with 4. by rewrite E2.
    + destruct (Hlive j ltac:(lia)) as (s & z & E1 & E2 & Hs & Hz).
      rewrite E1. rewrite (unpack_u32_length _ _ E1).
      change (Z.of_nat 4) with 4. rewrite E2.
      destruct (Z.eqb_spec s 0); [lia|]. cbn [andb].
      destruct (Z.ltb_spec 0 s); [|lia].
      destruct (Z.ltb_spec 0 z); [|lia]. cbn [andb].
      destruct (Z.ltb_spec 10000 (j + 1)); [f_equal; lia|].
      replace (32 * j + 32) with (32 * (j + 1)) by lia.
      apply IH; [lia | lia | lia | intros i Hi; apply Hlive; lia | done | lia].
  - destruct (Z.eq_dec j n) as [->|Hjn]; [done|].
    destruct (Hlive j ltac:(lia)) as (s & z & E1 & _).
    apply unpack_u32_length in E1.
    pose proof (slice_length_le d (32 * j) 4). lia.
Qed.

Lemma crowded_store_live (i : Z) :
  0 <= i < 10001 -> live_at crowded_store i.
Proof.
  intros Hi.
  pose proof (records_slice (Z.to_nat 10001) (Z.to_nat i) ltac:(lia)) as Hrec.
  replace (32 * Z.of_nat (Z.to_nat i)) with (32 * i) in Hrec by lia.
  destruct (record_fields crowded_store [x01; x00; x00; x00]
              [x01; x00; x00; x00] (replicate 24 x00) (32 * i))
    as (E1 & E2 & _);
    [lia | exact Hrec | reflexivity | reflexivity | reflexivity |].
  exists 1, 1. rewrite E1, E2. repeat split; reflexivity.
Qed.

(** C6, at a store of 10001 live records: the store is classified [VER1]
    and the resolved entry count is 10001, one more than the ceiling of
    10000. *)
Theorem get_entry_count_ver1_exceeds_ceiling :
  detect_img_format (<["big.img" := File crowded_store]> ∅) "big.img" = VER1
  /\ get_entry_count (<["big.img" := File crowded_store]> ∅) "big.img" VER1
     = Ok 10001.
Proof.
  split; [vm_compute; reflexivity|].
  unfold get_entry_count. rewrite lookup_insert_eq. unfold getsize, open_rb.
  pose proof (scan_ver1_count crowded_store 10001
                (S (length crowded_store)) 0 0) as Hscan.
  change (32 * 0) with 0 in Hscan.
  rewrite Hscan; [done | lia | lia | lia | | lia |].
  - intros i Hi. by apply crowded_store_live.
  - unfold crowded_store. rewrite records_length. lia.
Qed.

(** ** Detecting what was built *)

Lemma store_of_fields (format_type : img_format) (ms : list (string * bytes))
    (i : nat) (name : string) (data : bytes) :
  ms !! i = Some (name, data) ->
  let d := store_of format_type ms in
  let off := dir_start_of format_type + Z.of_nat i * 32 in
  let sector :=
    sector_at ms (data_start_sector_of format_type (Z.of_nat (length ms))) i in
  slice d off 4 = le32 sector /\ slice d (off + 4) 4 = le32 (getsize data).
Proof.
  intros Hi d off sector.
  destruct (record_fields d (le32 sector) (le32 (getsize data))
              (ljust 24 (take 24 (list_byte_of_string name))) off)
    as (E1 & E2 & _); [| by apply store_of_record | done | done | | done].
  - subst off. destruct format_type; simpl; lia.
  - unfold ljust. rewrite length_app, length_replicate, length_take. lia.
Qed.

Lemma data_start_sector_pos (format_type : img_format) (n : Z) :
  0 < n -> 0 < data_start_sector_of format_type n.
Proof.
  intros Hn. pose proof (data_start_after_directory format_type n) as Hds.
  unfold dir_size_of, SECTOR_SIZE in Hds.
  assert (0 <= header_size_of format_type) by (destruct format_type; simpl; lia).
  lia.
Qed.

Lemma store_of_length (format_type : img_format) (ms : list (string * bytes)) :
  Z.of_nat (length (store_of format_type ms))
  = data_start_sector_of format_type (Z.of_nat (length ms)) * SECTOR_SIZE
    + Z.of_nat (length (payload_bytes ms)).
Proof.
  unfold store_of. rewrite !length_app, dir_bytes_length, length_replicate.
  pose proof (header_bytes_length format_type (Z.of_nat (length ms))) as Hh.
  pose proof (data_start_after_directory format_type (Z.of_nat (length ms)))
    as Hds.
  layout_arith format_type (Z.of_nat (length ms)).
Qed.

Lemma detect_store_of_VER2 (fs : filesystem) (p : string)
    (ms : list (string * bytes)) :
  fs !! p = Some (File (store_of VER2 ms)) ->
  detect_img_format fs p = VER2.
Proof.
  intros Hp. unfold detect_img_format. rewrite Hp.
  cbn [f_read open_rb h_data h_pos].
  unfold store_of, header_bytes. rewrite <- !app_assoc.
  rewrite slice_app_l by (simpl; lia). by rewrite slice_all.
Qed.

Lemma count_store_of_VER2 (fs : filesystem) (p : string)
    (ms : list (string * bytes)) :
  fs !! p = Some (File (store_of VER2 ms)) ->
  Z.of_nat (length ms) < 4294967296 ->
  get_entry_count fs p VER2 = Ok (Z.of_nat (length ms)).
Proof.
  intros Hp Hn. unfold get_entry_count. rewrite Hp.
  cbn [f_read f_seek open_rb h_data h_pos].
  unfold store_of, header_bytes. rewrite <- !app_assoc.
  rewrite slice_app_r by (simpl; lia).
  rewrite slice_app_l by (simpl; lia).
  change (4 - Z.of_nat (length VER2_magic)) with 0.
  rewrite slice_all by done. apply unpack_le32. lia.
Qed.

Lemma detect_store_of_VER1 (fs : filesystem) (p : string)
    (ms : list (string * bytes)) :
  fs !! p = Some (File (store_of VER1 ms)) ->
  ms <> [] ->
  Forall good_member ms ->
  Z.of_nat (length ms) <= 10001 ->
  detect_img_format fs p = VER1.
Proof.
  intros Hp Hne Hms Hn. destruct ms as [|[name data] ms'] eqn:Ems; [done|].
  rewrite <- Ems in *. clear Hne.
  assert (H0 : ms !! 0%nat = Some (name, data)) by by rewrite Ems.
  assert (Hlen : 0 < Z.of_nat (length ms)) by (rewrite Ems; simpl; lia).
  pose proof (proj1 (Forall_lookup _ _) Hms 0%nat _ H0) as [_ Hsize].
  cbn [snd] in Hsize.
  destruct (store_of_fields VER1 ms 0 name data H0) as [E1 E2].
  cbv zeta in E1, E2.
  change (dir_start_of VER1 + Z.of_nat 0 * 32) with 0 in E1, E2.
  change (0 + 4) with 4 in E2.
  replace (sector_at ms (data_start_sector_of VER1 (Z.of_nat (length ms))) 0)
    with (data_start_sector_of VER1 (Z.of_nat (length ms))) in E1
    by by rewrite Ems.
  pose proof (data_start_sector_pos VER1 _ Hlen) as Hpos.
  pose proof (data_start_after_directory VER1 (Z.of_nat (length ms))) as Hds.
  pose proof (store_of_length VER1 ms) as Hsl.
  assert (Hpay : Z.of_nat (length data) <= Z.of_nat (length (payload_bytes ms))).
  { rewrite Ems. cbn [payload_bytes]. rewrite !length_app. lia. }
  unfold dir_size_of, SECTOR_SIZE, getsize in *. cbn [header_size_of] in Hds.
  unfold detect_img_format. rewrite Hp.
  cbn [f_read f_seek open_rb h_data h_pos]. rewrite E1.
  rewrite bool_decide_eq_false_2.
  2:{ intros Heq. pose proof (unpack_le32 (data_start_sector_of VER1
                                            (Z.of_nat (length ms)))
                                ltac:(lia)) as Hu.
      rewrite Heq in Hu. change (unpack_u32 VER2_magic) with (Ok 844252502) in Hu.
      injection Hu as Hu. lia. }
  unfold getsize. destruct (Z.ltb_spec (Z.of_nat (length (store_of VER1 ms))) 32);
    [lia|].
  change (0 + Z.of_nat (length (le32 (data_start_sector_of VER1
                                         (Z.of_nat (length ms)))))) with 4.
  rewrite E2, !unpack_le32 by lia.
  destruct (Z.ltb_spec 0 (data_start_sector_of VER1 (Z.of_nat (length ms))));
    [|lia].
  destruct (Z.ltb_spec 0 (Z.of_nat (length data))); [|lia].
  by destruct (Z.ltb_spec (Z.of_nat (length data))
                 (Z.of_nat (length (store_of VER1 ms)))); [|lia].
Qed.

Lemma gap_after_directory (n : Z) :
  0 <= n -> n `mod` 64 <> 0 ->
  32 <= data_start_sector_of VER1 n * SECTOR_SIZE - dir_size_of VER1 n.
Proof.
  unfold data_start_sector_of, dir_size_of, SECTOR_SIZE. cbn [header_size_of].
  intros. Z.div_mod_to_equations. lia.
Qed.

Lemma store_of_VER1_live (ms : list (string * bytes)) (i : Z) :
  Forall good_member ms ->
  sectors_fit ms (data_start_sector_of VER1 (Z.of_nat (length ms))) ->
  0 <= i < Z.of_nat (length ms) ->
  live_at (store_of VER1 ms) i.
Proof.
  intros Hms Hfit Hi.
  destruct (lookup_lt_is_Some_2 ms (Z.to_nat i)) as [[name data] Hm]; [lia|].
  pose proof (proj1 (Forall_lookup _ _) Hms _ _ Hm) as [_ Hsize].
  cbn [snd] in Hsize.
  destruct (store_of_fields VER1 ms _ name data Hm) as [E1 E2].
  cbv zeta in E1, E2. cbn [dir_start_of] in E1, E2.
  replace (0 + Z.of_nat (Z.to_nat i) * 32) with (32 * i) in E1, E2 by lia.
  set (ds := data_start_sector_of VER1 (Z.of_nat (length ms))) in *.
  pose proof (sector_at_ge ms ds (Z.to_nat i)).
  pose proof (sector_at_fits ms ds (Z.to_nat i) Hfit ltac:(lia)).
  pose proof (data_start_sector_pos VER1 (Z.of_nat (length ms)) ltac:(lia)).
  exists (sector_at ms ds (Z.to_nat i)), (getsize data).
  rewrite E1, E2, !unpack_le32 by lia. repeat split; lia.
Qed.

Lemma store_of_VER1_end (ms : list (string * bytes)) :
  Z.of_nat (length ms) `mod` 64 <> 0 ->
  end_at (store_of VER1 ms) (Z.of_nat (length ms)).
Proof.
  intros Hmod.
  pose proof (gap_after_directory (Z.of_nat (length ms)) ltac:(lia) Hmod) as Hgap.
  unfold end_at, store_of. cbn [header_bytes app].
  set (fill := replicate _ x00).
  assert (Hfill : 32 <= Z.of_nat (length fill))
    by (subst fill; rewrite length_replicate; lia).
  assert (Hzero : Forall (eq x00) fill) by (by apply Forall_replicate).
  assert (Hread : forall a, 0 <= a -> a + 4 <= 32 ->
            unpack_u32 (slice (dir_bytes ms (data_start_sector_of VER1
                                               (Z.of_nat (length ms)))
                               ++ fill ++ payload_bytes ms)
                              (32 * Z.of_nat (length ms) + a) 4) = Ok 0).
  { intros a Ha Ha'.
    rewrite slice_app_r by (rewrite dir_bytes_length; lia).
    rewrite dir_bytes_length, slice_app_l by lia.
    apply unpack_u32_zero; [rewrite slice_length; lia | by apply slice_Forall]. }
  split; [|by apply Hread].
  rewrite <- (Z.add_0_r (32 * Z.of_nat (length ms))). by apply Hread.
Qed.

Lemma count_store_of_VER1 (fs : filesystem) (p : string)
    (ms : list (string * bytes)) :
  fs !! p = Some (File (store_of VER1 ms)) ->
  Forall good_member ms ->
  sectors_fit ms (data_start_sector_of VER1 (Z.of_nat (length ms))) ->
  Z.of_nat (length ms) <= 10001 ->
  Z.of_nat (length ms) `mod` 64 <> 0 ->
  get_entry_count fs p VER1 = Ok (Z.of_nat (length ms)).
Proof.
  intros Hp Hms Hfit Hn Hmod. unfold get_entry_count. rewrite Hp.
  unfold getsize, open_rb.
  pose proof (scan_ver1_count (store_of VER1 ms) (Z.of_nat (length ms))
                (S (length (store_of VER1 ms))) 0 0) as Hscan.
  change (32 * 0) with 0 in Hscan.
  rewrite Hscan; [done | lia | lia | lia | | |].
  - intros i Hi. by apply store_of_VER1_live.
  - intros _. right. by apply store_of_VER1_end.
  - pose proof (store_of_length VER1 ms) as Hl.
    pose proof (data_start_after_directory VER1 (Z.of_nat (length ms))) as Hds.
    unfold dir_size_of, SECTOR_SIZE in *. cbn [header_size_of] in Hds. lia.
Qed.

(** ** The members of a directory *)

Lemma members_in_order_names (M : gmap string bytes) :
  (members_in_order M).*1 = sorted (listdir M).
Proof.
  unfold members_in_order. rewrite <- list_fmap_compose.
  apply list_fmap_id.
Qed.

Lemma elem_of_sorted_listdir (M : gmap string bytes) (k : string) :
  k ∈ sorted (listdir M) <-> is_Some (M !! k).
Proof.
  unfold sorted, listdir. rewrite merge_sort_Permutation, list_elem_of_fmap.
  split.
  - intros ([k' v] & -> & Hin). apply elem_of_map_to_list in Hin. by eexists.
  - intros [v Hv]. exists (k, v). split; [done|]. by apply elem_of_map_to_list.
Qed.

Lemma members_in_order_length (M : gmap string bytes) :
  length (members_in_order M) = size M.
Proof.
  unfold members_in_order, sorted, listdir.
  by rewrite length_fmap, merge_sort_Permutation, length_fmap,
    length_map_to_list.
Qed.

Lemma members_in_order_lookup (M : gmap string bytes) :
  Forall (fun m => M !! m.1 = Some m.2) (members_in_order M).
Proof.
  unfold members_in_order. apply Forall_fmap, Forall_forall.
  intros name [v Hv]%elem_of_sorted_listdir. cbn. by rewrite Hv.
Qed.

Lemma members_in_order_Forall (P : string -> bytes -> Prop)
    (M : gmap string bytes) :
  map_Forall P M -> Forall (fun m => P m.1 m.2) (members_in_order M).
Proof.
  intros HP. eapply Forall_impl; [apply members_in_order_lookup|].
  intros [name data] Hm. by apply (HP name data).
Qed.

Lemma members_in_order_nil (M : gmap string bytes) :
  members_in_order M = [] -> M = ∅.
Proof.
  intros Hnil. apply map_size_empty_iff.
  by rewrite <- members_in_order_length, Hnil.
Qed.

(** Extraction of the members in order into a directory rebuilds the input
    directory over what was there. *)
Lemma write_members_union (M out : gmap string bytes) :
  foldl (fun d m => <[m.1 := m.2]> d) out (members_in_order M) = M ∪ out.
Proof.
  apply map_eq. intros k.
  rewrite (foldl_insert_lookup M) by apply members_in_order_lookup.
  rewrite members_in_order_names, lookup_union.
  destruct (decide (k ∈ sorted (listdir M))) as [Hin|Hnin].
  - apply elem_of_sorted_listdir in Hin as [v Hv]. rewrite Hv.
    by destruct (out !! k).
  - rewrite elem_of_sorted_listdir in Hnin.
    destruct (M !! k) eqn:Hk; [by destruct Hnin|]. by destruct (out !! k).
Qed.

(** With payloads that are not empty, start sectors grow by at least one
    from member to member. *)
Lemma sector_at_grows (ms : list (string * bytes)) (sector : Z) (i : nat) :
  Forall good_member ms -> (i < length ms)%nat ->
  sector + Z.of_nat i <= sector_at ms sector i.
Proof.
  revert sector i. induction ms as [|[name data] ms IH]; intros sector i Hms Hi;
    [simpl in Hi; lia|].
  apply Forall_cons in Hms as [[_ Hsize] Hms]. cbn [snd] in Hsize.
  destruct i as [|i]; cbn [sector_at]; [lia|].
  specialize (IH (sector + sectors_needed (getsize data)) i Hms
                ltac:(simpl in Hi; lia)).
  assert (1 <= sectors_needed (getsize data)).
  { unfold sectors_needed, SECTOR_SIZE. Z.div_mod_to_equations. lia. }
  lia.
Qed.

Lemma members_count_fits (format_type : img_format)
    (ms : list (string * bytes)) :
  Forall good_member ms ->
  sectors_fit ms (data_start_sector_of format_type (Z.of_nat (length ms))) ->
  Z.of_nat (length ms) < 4294967296.
Proof.
  intros Hms Hfit. destruct (decide (length ms = 0%nat)) as [->|Hne]; [done|].
  set (ds := data_start_sector_of format_type (Z.of_nat (length ms))) in *.
  pose proof (sector_at_grows ms ds (length ms - 1) Hms ltac:(lia)).
  pose proof (sector_at_fits ms ds (length ms - 1) Hfit ltac:(lia)).
  pose proof (data_start_sector_pos format_type (Z.of_nat (length ms))
                ltac:(lia)). fold ds in H1.
  lia.
Qed.

(** ** Round trip *)

(** What the builder does on a directory of good members. *)
Lemma create_img_store (fs : filesystem) (format_type : img_format)
    (img_file input_dir : string) (M : gmap string bytes) :
  fs !! input_dir = Some (Dir M) ->
  format_type <> INVALID ->
  M <> ∅ ->
  map_Forall (fun name data => good_member (name, data)) M ->
  sectors_fit (members_in_order M)
              (data_start_sector_of format_type (Z.of_nat (size M))) ->
  isdir fs img_file = false ->
  create_img fs format_type img_file input_dir
  = (Ok true,
     <[img_file := File (store_of format_type (members_in_order M))]> fs).
Proof.
  intros Hin Hfmt Hne HM Hfit Himg.
  pose proof (members_in_order_Forall _ M HM) as Hgood. cbn [fst snd] in Hgood.
  assert (Hgood' : Forall good_member (members_in_order M)).
  { eapply Forall_impl; [exact Hgood|]. by intros []. }
  rewrite <- members_in_order_length in Hfit.
  destruct (create_img_body_layout format_type M (members_in_order M))
    as [p Hbody]; [done | | | | done |].
  { intros Hnil. by apply Hne, members_in_order_nil. }
  { pose proof (members_in_order_lookup M) as Hl.
    rewrite Forall_forall in Hl, Hgood' |- *.
    intros [name data] Hm. destruct (Hgood' _ Hm) as [Hname Hsize].
    cbn [fst snd] in *. split; [by apply (Hl _ Hm)|]. split.
    - apply storable_name_recordable; [done | lia].
    - intros ->. unfold getsize in Hsize. simpl in Hsize. lia. }
  { by apply (members_count_fits format_type). }
  unfold create_img. rewrite Hin. rewrite members_in_order_names in Hbody.
  assert (Hfiles : sorted (listdir M) <> []).
  { rewrite <- members_in_order_names. intros Hnil%fmap_nil_inv.
    by apply Hne, members_in_order_nil. }
  unfold isdir in Himg. rewrite Hbody.
  destruct format_type; [| |done];
    destruct (sorted (listdir M)); try done;
    by destruct (fs !! img_file) as [[|]|].
Qed.

(** What extraction does on a store the builder made. *)
Lemma extract_img_store (fs : filesystem) (format_type : img_format)
    (img_file output_dir : string) (M : gmap string bytes) :
  fs !! img_file = Some (File (store_of format_type (members_in_order M))) ->
  format_type <> INVALID ->
  M <> ∅ ->
  map_Forall (fun name data => good_member (name, data)) M ->
  sectors_fit (members_in_order M)
              (data_start_sector_of format_type (Z.of_nat (size M))) ->
  (format_type = VER1 ->
   Z.of_nat (size M) <= 10001 /\ Z.of_nat (size M) `mod` 64 <> 0) ->
  isfile fs output_dir = false ->
  extract_img_log fs img_file output_dir
  = (Ok true, <[output_dir := Dir (M ∪ dir_files fs output_dir)]> fs,
     sorted (listdir M)).
Proof.
  intros Himg Hfmt Hne HM Hfit Hv1 Hout.
  pose proof (members_in_order_Forall _ M HM) as Hgood. cbn [fst snd] in Hgood.
  assert (Hgood' : Forall good_member (members_in_order M)).
  { eapply Forall_impl; [exact Hgood|]. by intros []. }
  rewrite <- members_in_order_length in Hfit, Hv1.
  assert (Hnil : members_in_order M <> []).
  { intros Hnil. by apply Hne, members_in_order_nil. }
  assert (Hdetect : detect_img_format fs img_file = format_type).
  { destruct format_type; [| |done].
    - apply detect_store_of_VER1 with (members_in_order M); try done.
      by apply Hv1.
    - by apply detect_store_of_VER2 with (members_in_order M). }
  assert (Hcount : get_entry_count fs img_file format_type
                   = Ok (Z.of_nat (length (members_in_order M)))).
  { destruct format_type; [| |done].
    - apply count_store_of_VER1; try done; by apply Hv1.
    - apply count_store_of_VER2; [done|].
      by apply (members_count_fits VER2). }
  rewrite (extract_img_log_valid fs img_file output_dir
             (store_of format_type (members_in_order M))
             (Z.of_nat (length (members_in_order M))));
    rewrite ?Hdetect; try done.
  rewrite extract_fold_store by done.
  rewrite write_member_files, write_member_written. cbn [ex_files ex_written app].
  by rewrite write_members_union, members_in_order_names.
Qed.

(** C1 (as amended): building an archive in layout VER1 or VER2 from a
    directory that is not empty and extracting it into an empty directory
    gives back the directory, name for name and byte for byte, provided
    that every name is storable (at most 24 ASCII characters without NUL,
    no white space at either end), every payload is not empty and shorter
    than 2^32 bytes, every start sector fits 32 bits, and, for VER1, the
    number of members is at most 10001 and not a multiple of 64. *)
Theorem create_img_extract_img_round_trip (fs : filesystem)
    (format_type : img_format) (img_file input_dir output_dir : string)
    (M : gmap string bytes) :
  fs !! input_dir = Some (Dir M) ->
  format_type <> INVALID ->
  M <> ∅ ->
  map_Forall (fun name data => good_member (name, data)) M ->
  sectors_fit (members_in_order M)
              (data_start_sector_of format_type (Z.of_nat (size M))) ->
  (format_type = VER1 ->
   Z.of_nat (size M) <= 10001 /\ Z.of_nat (size M) `mod` 64 <> 0) ->
  isdir fs img_file = false ->
  output_dir <> img_file ->
  isfile fs output_dir = false ->
  dir_files fs output_dir = ∅ ->
  (create_img fs format_type img_file input_dir).1 = Ok true
  /\ extract_img (create_img fs format_type img_file input_dir).2
                 img_file output_dir
     = (Ok true,
        <[output_dir := Dir M]>
          (create_img fs format_type img_file input_dir).2).
Proof.
  intros Hin Hfmt Hne HM Hfit Hv1 Himg Hout Hfile Hempty.
  rewrite (create_img_store fs format_type img_file input_dir M) by done.
  cbn [fst snd]. split; [done|]. unfold extract_img.
  rewrite (extract_img_store _ format_type img_file output_dir M); try done.
  - cbn [fst]. unfold dir_files in *. rewrite lookup_insert_ne by done.
    by rewrite Hempty, (right_id_L ∅ (∪)).
  - by rewrite lookup_insert_eq.
  - unfold isfile in *. by rewrite lookup_insert_ne.
Qed.

Lemma two_files_good :
  map_Forall (fun name data => good_member (name, data)) two_files.
Proof.
  unfold two_files. apply map_Forall_insert_2; [|apply map_Forall_insert_2].
  - split; [reflexivity | by vm_compute].
  - split; [reflexivity | by vm_compute].
  - apply map_Forall_empty.
Qed.

Lemma create_img_extract_img_round_trip_witness :
  (create_img (<["in" := Dir two_files]> ∅) VER1 "x.img" "in").1 = Ok true
  /\ extract_img (create_img (<["in" := Dir two_files]> ∅) VER1 "x.img" "in").2
                 "x.img" "out"
     = (Ok true,
        <["out" := Dir two_files]>
          (create_img (<["in" := Dir two_files]> ∅) VER1 "x.img" "in").2).
Proof.
  apply (create_img_extract_img_round_trip
           (<["in" := Dir two_files]> ∅) VER1 "x.img" "in" "out" two_files).
  - reflexivity.
  - discriminate.
  - intros H. apply (f_equal (fun m => m !! "a.dat")) in H.
    vm_compute in H. discriminate H.
  - exact two_files_good.
  - vm_compute. repeat split.
  - intros _. vm_compute. split; [discriminate | discriminate].
  - reflexivity.
  - discriminate.
  - reflexivity.
  - reflexivity.
Defined.

(** C1, as stated, fails: a member of size 0 is built into the archive and
    is not extracted; the output directory holds [a.dat] only. *)
Lemma round_trip_loses_empty_member :
  (create_img (<["in" := Dir with_empty_file]> ∅) VER2 "x.img" "in").1 = Ok true
  /\ (extract_img
        (create_img (<["in" := Dir with_empty_file]> ∅) VER2 "x.img" "in").2
        "x.img" "out").2 !! "out"
     = Some (Dir (<["a.dat" := replicate 10 x41]> ∅))
  /\ ~ round_trip_as_stated.
Proof.
  assert (Hout : (extract_img
        (create_img (<["in" := Dir with_empty_file]> ∅) VER2 "x.img" "in").2
        "x.img" "out").2 !! "out"
     = Some (Dir (<["a.dat" := replicate 10 x41]> ∅)))
    by (vm_compute; reflexivity).
  split; [vm_compute; reflexivity|]. split; [exact Hout|].
  intros H.
  specialize (H (<["in" := Dir with_empty_file]> ∅) VER2 "x.img" "in" "out"
                with_empty_file).
  rewrite Hout in H.
  assert (Hne : Some (Dir (<["a.dat" := replicate 10 x41]> ∅))
                <> Some (Dir with_empty_file)).
  { intros Heq.
    apply (f_equal (fun o => match o with
                             | Some (Dir d) => d !! "b.dat"
                             | _ => None
                             end)) in Heq.
    vm_compute in Heq. discriminate Heq. }
  apply Hne, H.
  - reflexivity.
  - discriminate.
  - unfold with_empty_file.
    apply map_Forall_insert_2; [|apply map_Forall_insert_2];
      [| | apply map_Forall_empty].
    all: split; [unfold str_len; simpl; lia|].
    all: split; [reflexivity | unfold getsize; lia].
  - reflexivity.
  - discriminate.
  - reflexivity.
  - reflexivity.
Qed.

(** Further ways in which the round trip as stated fails, each behind one
    condition of the amended statement. *)

(** White space at the end of a name is trimmed on extraction: the file
    [" a"] comes back as [a]. *)
Lemma round_trip_trims_name :
  (extract_img
     (create_img (<["in" := Dir padded_name_file]> ∅) VER2 "x.img" "in").2
     "x.img" "out").2 !! "out"
  = Some (Dir (<["a" := [x41]]> ∅)).
Proof. vm_compute. reflexivity. Qed.

(** A VER1 directory of 64 records fills its sector, no terminator follows
    it, and the scan reads on into the first payload: the count is 65 and
    extraction writes a file [zz] that was never a member. *)
Lemma round_trip_ver1_full_table :
  size full_table = 64%nat
  /\ get_entry_count
       (create_img (<["in" := Dir full_table]> ∅) VER1 "x.img" "in").2
       "x.img" VER1 = Ok 65
  /\ (extract_img
        (create_img (<["in" := Dir full_table]> ∅) VER1 "x.img" "in").2
        "x.img" "out").2 !! "out"
     = Some (Dir (<["zz" := [x01]]> full_table)).
Proof.
  split; [vm_compute; reflexivity|].
  split; vm_compute; reflexivity.
Qed.

(** ** The two-file scenario *)

Lemma entry_at_record (store : bytes) (off sector size : Z) (name : string) :
  0 <= off ->
  slice store off 32 = record_bytes sector size name ->
  0 <= sector < 4294967296 -> 0 <= size < 4294967296 ->
  storable_name name = true ->
  entry_at store off = Ok (sector, size, name).
Proof.
  intros Hoff Hrec Hsector Hsize Hname.
  destruct (record_fields store (le32 sector) (le32 size)
              (ljust 24 (take 24 (list_byte_of_string name))) off Hoff Hrec)
    as (E1 & E2 & E3); [done | done | |].
  { unfold ljust. rewrite length_app, length_replicate, length_take. lia. }
  unfold entry_at. rewrite E1, E2, E3, !unpack_le32 by lia.
  cbn [mbind result_bind]. by rewrite decode_name_field.
Qed.

(** C2: built in layout VER2 from [a.dat] of 10 bytes and [b.dat] of 5000
    bytes, the archive has a directory of 72 bytes and its data begins at
    sector 1; the header counts two entries, the entry of [a.dat] has start
    sector 1 and its payload lies at byte 2048, the entry of [b.dat] has
    start sector 2 and its payload lies at byte 4096. *)
Theorem create_img_two_file_scenario (da db : bytes) :
  length da = 10%nat -> length db = 5000%nat ->
  let M : gmap string bytes := <["b.dat" := db]> (<["a.dat" := da]> ∅) in
  let fs : filesystem := <["in" := Dir M]> ∅ in
  exists store,
    create_img fs VER2 "x.img" "in" = (Ok true, <["x.img" := File store]> fs)
    /\ dir_size_of VER2 2 = 72
    /\ data_start_sector_of VER2 2 = 1
    /\ slice store 0 4 = VER2_magic
    /\ unpack_u32 (slice store 4 4) = Ok 2
    /\ entry_at store 8 = Ok (1, 10, "a.dat"%string)
    /\ entry_at store 40 = Ok (2, 5000, "b.dat"%string)
    /\ slice store (1 * SECTOR_SIZE) 10 = da
    /\ slice store (2 * SECTOR_SIZE) 5000 = db.
Proof.
  intros Ha Hb M fs.
  set (ms := [("a.dat"%string, da); ("b.dat"%string, db)]).
  assert (Hms : members_in_order M = ms) by (vm_compute; reflexivity).
  assert (Hsize : size M = 2%nat) by (vm_compute; reflexivity).
  assert (Hga : getsize da = 10) by (unfold getsize; lia).
  assert (Hgb : getsize db = 5000) by (unfold getsize; lia).
  exists (store_of VER2 ms).
  split; [|split; [reflexivity|split; [reflexivity|]]].
  { rewrite <- Hms. apply create_img_store.
    - reflexivity.
    - discriminate.
    - intros HM. apply (f_equal (fun m => m !! "a.dat")) in HM.
      vm_compute in HM. discriminate HM.
    - subst M. apply map_Forall_insert_2; [|apply map_Forall_insert_2];
        [| | apply map_Forall_empty].
      all: split; [reflexivity | cbn [snd]; lia].
    - rewrite Hms, Hsize. cbn [sectors_fit ms]. rewrite Hga.
      vm_compute. repeat split.
    - reflexivity. }
  assert (Hrec0 := store_of_record VER2 ms 0 "a.dat" da eq_refl).
  assert (Hrec1 := store_of_record VER2 ms 1 "b.dat" db eq_refl).
  assert (Hmem0 := store_of_member VER2 ms 0 "a.dat" da eq_refl).
  assert (Hmem1 := store_of_member VER2 ms 1 "b.dat" db eq_refl).
  cbn [sector_at ms length] in Hrec0, Hrec1, Hmem0, Hmem1.
  rewrite Hga, ?Hgb in *.
  change (data_start_sector_of VER2 (Z.of_nat 2)) with 1 in *.
  change (1 + sectors_needed 10) with 2 in *.
  change (dir_start_of VER2 + Z.of_nat 0 * 32) with 8 in Hrec0.
  change (dir_start_of VER2 + Z.of_nat 1 * 32) with 40 in Hrec1.
  split; [|split; [|split; [|split; [|split]]]].
  - unfold store_of, header_bytes. rewrite <- !app_assoc.
    rewrite slice_app_l by (cbn [length VER2_magic]; lia).
    apply slice_all. reflexivity.
  - unfold store_of, header_bytes. rewrite <- !app_assoc.
    rewrite slice_app_r by (cbn [length VER2_magic]; lia).
    rewrite slice_app_l by (cbn [length VER2_magic le32]; lia).
    change (4 - Z.of_nat (length VER2_magic)) with 0.
    rewrite slice_all by reflexivity. reflexivity.
  - apply entry_at_record; [lia | exact Hrec0 | lia | lia | reflexivity].
  - apply entry_at_record; [lia | exact Hrec1 | lia | lia | reflexivity].
  - exact Hmem0.
  - exact Hmem1.
Qed.

Lemma create_img_two_file_scenario_witness :
  exists store,
    create_img (<["in" := Dir two_files]> ∅) VER2 "x.img" "in"
    = (Ok true, <["x.img" := File store]> (<["in" := Dir two_files]> ∅))
    /\ entry_at store 8 = Ok (1, 10, "a.dat"%string)
    /\ entry_at store 40 = Ok (2, 5000, "b.dat"%string)
    /\ slice store 2048 10 = replicate 10 x41
    /\ slice store 4096 5000 = replicate 5000 x42.
Proof.
  destruct (create_img_two_file_scenario (replicate 10 x41)
              (replicate 5000 x42) eq_refl (length_replicate _ _))
    as (store & H1 & _ & _ & _ & _ & H2 & H3 & H4 & H5).
  exists store. repeat split; assumption.
Defined.

(** * Further properties *)

(** ** Detection and entry count *)

Lemma detect_img_format_signature (fs : filesystem) (p : string)
    (data : bytes) :
  fs !! p = Some (File data) ->
  take 4 data = VER2_magic ->
  detect_img_format fs p = VER2.
Proof.
  intros Hp Hmagic. unfold detect_img_format. rewrite Hp.
  cbn [f_read open_rb h_data h_pos].
  rewrite slice_take_drop by done. change (Z.to_nat 0) with 0%nat.
  rewrite drop_0. change (Z.to_nat 4) with 4%nat.
  by rewrite Hmagic, bool_decide_eq_true_2.
Qed.

(** The scan from entry [j] on: what it counts is live, and it stops only
    at the end of the store, at a record that is not live, or at its
    bound. *)
Lemma scan_ver1_counts_live (d : bytes) (fuel : nat) (p j n : Z) :
  0 <= j ->
  scan_ver1 fuel (Handle d p) (Z.of_nat (length d)) j (32 * j) = Some n ->
  j <= n
  /\ (forall i, j <= i < n -> live_at d i)
  /\ (n <= 10000 -> 32 * n < Z.of_nat (length d) -> ~ live_at d n).
Proof.
  revert p j. induction fuel as [|fuel IH]; intros p j Hj Hscan.
  - cbn [scan_ver1] in Hscan.
    destruct (Z.ltb_spec (32 * j) (Z.of_nat (length d))); [done|].
    injection Hscan as <-. split; [lia|]. split; intros; lia.
  - cbn [scan_ver1] in Hscan.
    destruct (Z.ltb_spec (32 * j) (Z.of_nat (length d))); cbn [negb] in Hscan;
      [| injection Hscan as <-; split; [lia|]; split; intros; lia].
    cbn [f_read f_seek h_data h_pos] in Hscan.
    destruct (unpack_u32 (slice d (32 * j) 4)) as [s| |] eqn:E1.
    2,3: injection Hscan as <-; split; [lia|]; split; [intros; lia|];
      intros _ _ (s' & z' & U1 & _); congruence.
    rewrite (unpack_u32_length _ _ E1) in Hscan.
    change (Z.of_nat 4) with 4 in Hscan.
    destruct (unpack_u32 (slice d (32 * j + 4) 4)) as [z| |] eqn:E2.
    2,3: injection Hscan as <-; split; [lia|]; split; [intros; lia|];
      intros _ _ (s' & z' & _ & U2 & _); congruence.
    assert (Hdead : ~ (0 < s /\ 0 < z) -> ~ live_at d j).
    { intros Hno (s' & z' & U1 & U2 & ? & ?).
      rewrite E1 in U1. rewrite E2 in U2.
      injection U1 as <-. injection U2 as <-. by apply Hno. }
    destruct (Z.eqb_spec s 0), (Z.eqb_spec z 0); cbn [andb] in Hscan.
    1: injection Hscan as <-; split; [lia|]; split; [intros; lia|];
      intros _ _; apply Hdead; lia.
    all: destruct (Z.ltb_spec 0 s); cbn [andb] in Hscan;
      [| injection Hscan as <-; split; [lia|]; split; [intros; lia|];
         intros _ _; apply Hdead; lia].
    all: destruct (Z.ltb_spec 0 z); cbn [andb] in Hscan;
      [| injection Hscan as <-; split; [lia|]; split; [intros; lia|];
         intros _ _; apply Hdead; lia].
    all: try lia.
    assert (Hlive : live_at d j) by (exists s, z; auto).
    destruct (Z.ltb_spec 10000 (j + 1)).
    + injection Hscan as <-. split; [lia|]. split; [|lia].
      intros i Hi. by replace i with j by lia.
    + replace (32 * j + 32) with (32 * (j + 1)) in Hscan by lia.
      apply IH in Hscan as (Hle & Hlive' & Hstop); [|lia].
      split; [lia|]. split; [|done].
      intros i Hi. destruct (Z.eq_dec i j) as [->|]; [done|].
      apply Hlive'. lia.
Qed.

(** X1: for every regular file, the VER1 entry count is resolved (the scan
    ends) and lies between 0 and 10001; every record it counts has a
    nonzero start sector and a nonzero size, and the scan stops only at the
    end of the store, at a record that is not such, or at its bound. *)
Theorem get_entry_count_ver1_counts_live (fs : filesystem) (p : string)
    (data : bytes) :
  fs !! p = Some (File data) ->
  exists n,
    get_entry_count fs p VER1 = Ok n
    /\ 0 <= n <= 10001
    /\ (forall i, 0 <= i < n -> live_at data i)
    /\ (n <= 10000 -> 32 * n < getsize data -> ~ live_at data n).
Proof.
  intros Hp.
  destruct (scan_ver1_terminates (S (length data)) (open_rb data)
              (getsize data) 0 0) as (n & Hn & Hb);
    [unfold getsize; lia | lia |].
  exists n. unfold get_entry_count. rewrite Hp, Hn.
  split; [done|]. split; [lia|].
  destruct (scan_ver1_counts_live data (S (length data)) 0 0 n) as (_ & ? & ?);
    [lia | exact Hn | done].
Qed.

Lemma get_entry_count_ver1_counts_live_witness :
  exists n,
    get_entry_count (<["h.img" := File headless_store]> ∅) "h.img" VER1 = Ok n
    /\ 0 <= n <= 10001
    /\ (forall i, 0 <= i < n -> live_at headless_store i)
    /\ (n <= 10000 -> 32 * n < getsize headless_store
        -> ~ live_at headless_store n).
Proof.
  apply (get_entry_count_ver1_counts_live _ "h.img" headless_store).
  reflexivity.
Defined.

(** X2: a store that begins with the magic and ends before its eighth
    byte is classified [VER2], its entry count raises [struct.error], and
    extraction lets the exception through after creating the output
    directory. *)
Theorem extract_img_header_cut_short (fs : filesystem)
    (img_file output_dir : string) (data : bytes) :
  fs !! img_file = Some (File data) ->
  take 4 data = VER2_magic ->
  (length data < 8)%nat ->
  isfile fs output_dir = false ->
  get_entry_count fs img_file VER2 = Raise StructError
  /\ extract_img fs img_file output_dir
     = (Raise StructError,
        <[output_dir := Dir (dir_files fs output_dir)]> fs).
Proof.
  intros Himg Hmagic Hlen Hout.
  assert (Hcount : get_entry_count fs img_file VER2 = Raise StructError).
  { unfold get_entry_count. rewrite Himg.
    cbn [f_read f_seek open_rb h_data h_pos].
    apply unpack_u32_short.
    pose proof (slice_length_le data 4 4 ltac:(lia)). lia. }
  split; [exact Hcount|].
  assert (Hne : output_dir <> img_file).
  { intros ->. unfold isfile in Hout. by rewrite Himg in Hout. }
  unfold extract_img, extract_img_log, dir_files. rewrite Himg.
  unfold isfile in Hout.
  destruct (fs !! output_dir) as [[?|out]|]; [done| |].
  all: rewrite (detect_img_format_ext _ fs) by by rewrite lookup_insert_ne.
  all: rewrite (detect_img_format_signature fs img_file data Himg Hmagic).
  all: rewrite (get_entry_count_ext _ fs) by by rewrite lookup_insert_ne.
  all: by rewrite Hcount.
Qed.

Lemma extract_img_header_cut_short_witness :
  extract_img (<["c.img" := File (VER2_magic ++ [x02; x00])]> ∅) "c.img" "out"
  = (Raise StructError,
     <["out" := Dir ∅]> (<["c.img" := File (VER2_magic ++ [x02; x00])]> ∅)).
Proof.
  destruct (extract_img_header_cut_short
              (<["c.img" := File (VER2_magic ++ [x02; x00])]> ∅) "c.img" "out"
              (VER2_magic ++ [x02; x00])) as [_ H];
    [reflexivity | reflexivity | simpl; lia | reflexivity |].
  exact H.
Defined.

(** ** What extraction and building leave alone *)





(** ** What extraction adds *)



Lemma archive_members_fold (fs : filesystem) (img_file : string)
    (data : bytes) (n : Z) :
  fs !! img_file = Some (File data) ->
  detect_img_format fs img_file <> INVALID ->
  get_entry_count fs img_file (detect_img_format fs img_file) = Ok n ->
  archive_members fs img_file
  = ex_files (foldl (extract_step (open_rb data)
                       (dir_start_of (detect_img_format fs img_file)))
                    (Extraction ∅ []) (seqZ 0 n)).
Proof.
  intros Himg Hfmt Hcount. unfold archive_members. rewrite Himg, Hcount.
  rewrite extract_loop_fold. by destruct (detect_img_format fs img_file).
Qed.




(** ** When the builder refuses *)

Lemma sorted_listdir_nil (d : gmap string bytes) :
  sorted (listdir d) = [] <-> d = ∅.
Proof.
  split.
  - intros Hnil. apply map_size_empty_iff.
    rewrite <- (length_map_to_list d), <- (length_fmap fst).
    fold (listdir d).
    rewrite <- (Permutation_length (merge_sort_Permutation str_le (listdir d))).
    unfold sorted in Hnil. by rewrite Hnil.
  - intros ->. reflexivity.
Qed.

Lemma create_img_false (fs : filesystem) (format_type : img_format)
    (img_file input_dir : string) :
  (create_img fs format_type img_file input_dir).1 = Ok false <->
  (isdir fs input_dir = false \/ format_type = INVALID
   \/ dir_files fs input_dir = ∅).
Proof.
  unfold create_img, isdir, dir_files.
  destruct (fs !! input_dir) as [[?|input]|]; [by split; auto | | by split; auto].
  destruct (decide (format_type = INVALID)) as [->|Hfmt]; [by split; auto|].
  destruct (decide (input = ∅)) as [->|Hne].
  { by destruct format_type; split; auto. }
  pose proof (proj1 (sorted_listdir_nil input)) as Hnil.
  split.
  - intros Hfalse. exfalso.
    destruct format_type; [| |done];
      (destruct (sorted (listdir input)) as [|name names] eqn:Hs;
       [by apply Hne, Hnil|]);
      (destruct (fs !! img_file) as [[?|?]|]; [| done |]);
      destruct (create_img_body _ input (name :: names)) as [[[]| |] f];
      done.
  - intros [?|[?|?]]; done.
Qed.

Lemma create_img_false_unchanged (fs : filesystem) (format_type : img_format)
    (img_file input_dir : string) :
  (create_img fs format_type img_file input_dir).1 = Ok false ->
  (create_img fs format_type img_file input_dir).2 = fs.
Proof.
  intros [Hdir|[->|Hempty]]%create_img_false; unfold create_img.
  - unfold isdir in Hdir. by destruct (fs !! input_dir) as [[?|?]|].
  - by destruct (fs !! input_dir) as [[?|?]|].
  - unfold dir_files in Hempty.
    destruct (fs !! input_dir) as [[?|input]|]; [done | | done]. subst input.
    by destruct format_type.
Qed.

(** X5: the builder returns [False] exactly when the input path is not a
    directory, the format token is not one of the two layouts, or the
    directory holds no file; it then leaves the file system as it was, and
    does not create or truncate the archive. *)
Theorem create_img_refuses (fs : filesystem) (format_type : img_format)
    (img_file input_dir : string) :
  ((create_img fs format_type img_file input_dir).1 = Ok false <->
   (isdir fs input_dir = false \/ format_type = INVALID
    \/ dir_files fs input_dir = ∅))
  /\ ((create_img fs format_type img_file input_dir).1 = Ok false ->
      (create_img fs format_type img_file input_dir).2 = fs).
Proof.
  split; [apply create_img_false | apply create_img_false_unchanged].
Qed.

Lemma create_img_refuses_witness :
  create_img (<["in" := Dir ∅]> ∅) VER2 "x.img" "in"
  = (Ok false, <["in" := Dir ∅]> ∅).
Proof.
  destruct (create_img_refuses (<["in" := Dir ∅]> ∅) VER2 "x.img" "in")
    as [[_ H1] H2].
  assert (H : (create_img (<["in" := Dir ∅]> ∅) VER2 "x.img" "in").1 = Ok false)
    by (apply H1; right; right; reflexivity).
  specialize (H2 H).
  destruct (create_img (<["in" := Dir ∅]> ∅) VER2 "x.img" "in") as [r fs'].
  cbn [fst snd] in *. by subst.
Defined.

Lemma create_img_other_paths (fs : filesystem) (format_type : img_format)
    (img_file input_dir p : string) :
  p <> img_file ->
  (create_img fs format_type img_file input_dir).2 !! p = fs !! p.
Proof.
  intros Hp. unfold create_img.
  destruct (fs !! input_dir) as [[?|input]|]; [done | | done].
  destruct format_type; [| |done];
    (destruct (sorted (listdir input)); [done|]);
    (destruct (fs !! img_file) as [[?|?]|]; [| done |]);
    destruct (create_img_body _ _ _); cbn [snd];
    by rewrite lookup_insert_ne.
Qed.

(** X6: the builder changes nothing but the archive path: every other path
    of the file system, the input directory included, is as it was,
    whatever the outcome. *)
Theorem create_img_frame (fs : filesystem) (format_type : img_format)
    (img_file input_dir p : string) :
  p <> img_file ->
  (create_img fs format_type img_file input_dir).2 !! p = fs !! p.
Proof. apply create_img_other_paths. Qed.

Lemma create_img_frame_witness :
  (create_img (<["in" := Dir two_files]> ∅) VER2 "x.img" "in").2 !! "in"
  = Some (Dir two_files).
Proof.
  rewrite (create_img_frame _ VER2 "x.img" "in" "in"); [reflexivity|].
  discriminate.
Defined.

(** ** The archive of a directory *)

Lemma buildable_members (format_type : img_format) (M : gmap string bytes) :
  buildable format_type M ->
  members_in_order M <> []
  /\ Forall good_member (members_in_order M)
  /\ sectors_fit (members_in_order M)
       (data_start_sector_of format_type
          (Z.of_nat (length (members_in_order M)))).
Proof.
  intros (Hfmt & Hne & HM & Hfit). split; [|split].
  - intros Hnil. by apply Hne, members_in_order_nil.
  - pose proof (members_in_order_Forall _ M HM) as Hgood.
    eapply Forall_impl; [exact Hgood|]. by intros [].
  - by rewrite members_in_order_length.
Qed.

Lemma create_img_archive (fs : filesystem) (format_type : img_format)
    (img_file input_dir : string) (M : gmap string bytes) :
  fs !! input_dir = Some (Dir M) ->
  buildable format_type M ->
  isdir fs img_file = false ->
  create_img fs format_type img_file input_dir
  = (Ok true, <[img_file := File (archive_of format_type M)]> fs).
Proof.
  intros Hin (Hfmt & Hne & HM & Hfit) Himg. by apply create_img_store.
Qed.

Lemma readable_recognised (fs : filesystem) (format_type : img_format)
    (img_file : string) (M : gmap string bytes) :
  fs !! img_file = Some (File (archive_of format_type M)) ->
  readable format_type M ->
  detect_img_format fs img_file = format_type
  /\ get_entry_count fs img_file format_type
     = Ok (Z.of_nat (length (members_in_order M))).
Proof.
  intros Himg [Hb Hv1].
  destruct (buildable_members _ _ Hb) as (Hnil & Hgood & Hfit).
  destruct Hb as (Hfmt & _).
  rewrite <- members_in_order_length in Hv1. unfold archive_of in Himg. split.
  - destruct format_type; [| |done].
    + apply detect_store_of_VER1 with (members_in_order M); try done.
      by apply Hv1.
    + by apply detect_store_of_VER2 with (members_in_order M).
  - destruct format_type; [| |done].
    + apply count_store_of_VER1; try done; by apply Hv1.
    + apply count_store_of_VER2; [done|]. by apply (members_count_fits VER2).
Qed.

Lemma extract_img_archive (fs : filesystem) (format_type : img_format)
    (img_file output_dir : string) (M : gmap string bytes) :
  fs !! img_file = Some (File (archive_of format_type M)) ->
  readable format_type M ->
  isfile fs output_dir = false ->
  extract_img fs img_file output_dir
  = (Ok true, <[output_dir := Dir (M ∪ dir_files fs output_dir)]> fs).
Proof.
  intros Himg [(Hfmt & Hne & HM & Hfit) Hv1] Hout. unfold extract_img.
  by rewrite (extract_img_store fs format_type img_file output_dir M).
Qed.

Lemma two_files_buildable : buildable VER2 two_files.
Proof.
  split; [discriminate|]. split; [|split].
  - intros H. apply (f_equal (fun m => m !! "a.dat")) in H.
    vm_compute in H. discriminate H.
  - exact two_files_good.
  - vm_compute. repeat split.
Qed.

Lemma two_files_readable : readable VER2 two_files.
Proof. split; [exact two_files_buildable | discriminate]. Qed.

Lemma payload_bytes_length (ms : list (string * bytes)) :
  Z.of_nat (length (payload_bytes ms)) = total_sectors ms * SECTOR_SIZE.
Proof.
  induction ms as [|[name data] ms IH]; [done|].
  cbn [payload_bytes total_sectors foldr snd].
  rewrite app_assoc, length_app, Nat2Z.inj_add, padded_length.
  fold (total_sectors ms). rewrite IH. lia.
Qed.

(** X7: the archive built from a directory of good members is a whole
    number of sectors long: the sectors of the header and directory
    followed by the sectors of each payload. *)
Theorem create_img_size (fs : filesystem) (format_type : img_format)
    (img_file input_dir : string) (M : gmap string bytes) :
  fs !! input_dir = Some (Dir M) ->
  buildable format_type M ->
  isdir fs img_file = false ->
  exists store,
    create_img fs format_type img_file input_dir
    = (Ok true, <[img_file := File store]> fs)
    /\ getsize store
       = (data_start_sector_of format_type (Z.of_nat (size M))
          + total_sectors (members_in_order M)) * SECTOR_SIZE.
Proof.
  intros Hin Hb Himg. exists (archive_of format_type M).
  split; [by apply create_img_archive|].
  unfold getsize, archive_of.
  rewrite store_of_length, payload_bytes_length, members_in_order_length. lia.
Qed.

Lemma create_img_size_witness :
  exists store,
    create_img (<["in" := Dir two_files]> ∅) VER2 "x.img" "in"
    = (Ok true, <["x.img" := File store]> (<["in" := Dir two_files]> ∅))
    /\ getsize store = 10240.
Proof.
  destruct (create_img_size (<["in" := Dir two_files]> ∅) VER2 "x.img" "in"
              two_files) as (store & Hc & Hl);
    [reflexivity | exact two_files_buildable | reflexivity |].
  exists store. split; [exact Hc|]. rewrite Hl. reflexivity.
Defined.

(** ** Listing what was built *)

Lemma rstrip_nul_fill (b : bytes) (k : nat) :
  ascii_text b = true -> rstrip is_nul (b ++ replicate k x00) = b.
Proof.
  intros Hb. unfold rstrip. rewrite reverse_app, reverse_replicate.
  assert (Hfill : forall l, lstrip is_nul (replicate k x00 ++ l)
                            = lstrip is_nul l).
  { intros l. induction k as [|k IH]; [done|]. cbn [replicate app lstrip].
    unfold is_nul at 1. by rewrite bool_decide_eq_true_2. }
  rewrite Hfill.
  assert (Hlast : lstrip is_nul (reverse b) = reverse b).
  { destruct (reverse b) as [|c l] eqn:Hr; [done|]. cbn [lstrip].
    assert (Hc : c ∈ b).
    { apply elem_of_reverse. rewrite Hr. apply elem_of_cons. by left. }
    unfold ascii_text in Hb. rewrite forallb_forall in Hb.
    apply list_elem_of_In, Hb, andb_true_iff in Hc as [Hc _].
    unfold is_nul. rewrite bool_decide_eq_false_2; [done|].
    intros ->. done. }
  rewrite Hlast. apply reverse_involutive.
Qed.

Lemma list_name_field (name : string) :
  storable_name name = true ->
  decode_ascii_ignore
    (rstrip is_nul (ljust 24 (take 24 (list_byte_of_string name))))
  = name.
Proof.
  unfold storable_name, str_len.
  intros [[[Hlen Htext]%andb_true_iff Hsp]%andb_true_iff _]%andb_true_iff.
  apply Z.leb_le in Hlen.
  rewrite take_ge by (rewrite list_byte_of_string_length; lia).
  unfold ljust. rewrite rstrip_nul_fill by done.
  unfold decode_ascii_ignore. rewrite filter_ascii_text by done.
  apply string_of_list_byte_of_string.
Qed.

Lemma list_entry_live (fnmatch : string -> string -> bool)
    (filter_pattern : option string) (f : handle)
    (dir_start i sector size : Z) (name : string) (rows : list row) :
  0 <= dir_start + i * 32 ->
  slice (h_data f) (dir_start + i * 32) 32 = record_bytes sector size name ->
  0 <= sector < 4294967296 -> 0 < size < 4294967296 ->
  storable_name name = true ->
  list_entry fnmatch filter_pattern f dir_start i rows
  = Ok (if row_wanted fnmatch filter_pattern (name, size, sector)
        then rows ++ [(name, size, sector)] else rows).
Proof.
  intros Hoff Hrec Hsector Hsize Hname.
  destruct (record_fields (h_data f) (le32 sector) (le32 size)
              (ljust 24 (take 24 (list_byte_of_string name)))
              (dir_start + i * 32) Hoff Hrec) as (E1 & E2 & E3); [done | done | |].
  { unfold ljust. rewrite length_app, length_replicate, length_take. lia. }
  unfold list_entry. cbn [f_read f_seek h_data h_pos].
  rewrite E1. change (Z.of_nat (length (le32 sector))) with 4.
  rewrite E2. change (Z.of_nat (length (le32 size))) with 4.
  replace (dir_start + i * 32 + 4 + 4) with (dir_start + i * 32 + 8) by lia.
  rewrite E3, !unpack_le32 by lia. cbn [mbind result_bind].
  rewrite list_name_field by done.
  assert (Hne : String.eqb name "" = false).
  { unfold storable_name in Hname. apply andb_true_iff in Hname as [_ Hplain].
    unfold plain_name in Hplain. by destruct (String.eqb name ""). }
  rewrite Hne. destruct (Z.eqb_spec size 0); [lia|]. cbn [orb].
  unfold row_wanted. cbn [fst snd].
  destruct filter_pattern as [pat|]; [|done].
  by destruct (String.eqb pat ""), (fnmatch name pat).
Qed.

Lemma except_continue_list (fnmatch : string -> string -> bool)
    (filter_pattern : option string) (f : handle) (dir_start i : Z)
    (rows : list row) :
  except_continue (list_entry fnmatch filter_pattern f dir_start i rows) rows
  = Ok (list_step fnmatch filter_pattern f dir_start rows i).
Proof.
  unfold list_step, list_entry. cbn [f_read f_seek h_data h_pos].
  destruct (unpack_u32_cases (slice (h_data f) (dir_start + i * 32) 4))
    as [[v1 ->]| ->]; [|done].
  cbn [mbind result_bind].
  match goal with |- context [unpack_u32 ?b] =>
    destruct (unpack_u32_cases b) as [[v2 ->]| ->]; [|done] end.
  cbn [mbind result_bind].
  destruct (_ || _); [done|]. by destruct filter_pattern as [pat|]; [case_match|].
Qed.

Lemma info_of_lookup (ms : list (string * bytes)) (sector : Z) (i : nat) :
  info_of ms sector !! i
  = (fun m => (m.1, getsize m.2, sector_at ms sector i)) <$> ms !! i.
Proof.
  revert sector i. induction ms as [|[name data] ms IH]; intros sector i.
  - by destruct i.
  - destruct i as [|i]; [done|]. cbn [info_of sector_at lookup list_lookup].
    apply IH.
Qed.

Lemma info_of_length (ms : list (string * bytes)) (sector : Z) :
  length (info_of ms sector) = length ms.
Proof.
  revert sector. induction ms as [|[name data] ms IH]; intros sector; [done|].
  cbn [info_of length]. by rewrite IH.
Qed.

Lemma foldl_keep {A : Type} (keep : A -> bool) (l acc : list A) :
  foldl (fun rows r => if keep r then rows ++ [r] else rows) acc l
  = acc ++ List.filter keep l.
Proof.
  revert acc. induction l as [|r l IH]; intros acc.
  - by rewrite app_nil_r.
  - cbn [foldl List.filter]. rewrite IH. destruct (keep r); [|done].
    by rewrite <- app_assoc.
Qed.

(** X8: the listing of an archive built from a directory of good members
    gives, in sorted order, the name, the size and the start sector of each
    member the filter lets through; without a pattern, or with the empty
    pattern, it gives them all. *)
Theorem list_img_filtered_of_built_archive (fnmatch : string -> string -> bool)
    (fs : filesystem) (format_type : img_format) (img_file : string)
    (M : gmap string bytes) (filter_pattern : option string) :
  fs !! img_file = Some (File (archive_of format_type M)) ->
  readable format_type M ->
  list_img_filtered fnmatch fs img_file filter_pattern
  = (Ok true,
     List.filter (row_wanted fnmatch filter_pattern)
       (info_of (members_in_order M)
                (data_start_sector_of format_type (Z.of_nat (size M))))).
Proof.
  intros Himg Hr.
  destruct (readable_recognised fs format_type img_file M Himg Hr)
    as [Hdetect Hcount].
  destruct Hr as [Hb _].
  destruct (buildable_members _ _ Hb) as (Hnil & Hgood & Hfit).
  destruct Hb as (Hfmt & _).
  rewrite <- members_in_order_length.
  set (ms := members_in_order M) in *.
  set (ds := data_start_sector_of format_type (Z.of_nat (length ms))) in *.
  unfold list_img_filtered. rewrite Himg, Hdetect, Hcount.
  rewrite (for_each_total _
             (list_step fnmatch filter_pattern
                (open_rb (archive_of format_type M))
                (dir_start_of format_type)))
    by (intros; apply except_continue_list).
  rewrite <- (info_of_length ms ds).
  rewrite (foldl_indexed _
             (fun rows r => if row_wanted fnmatch filter_pattern r
                            then rows ++ [r] else rows)).
  { rewrite foldl_keep. by destruct format_type. }
  intros i [[name size] sector] rows Hi.
  rewrite info_of_lookup in Hi.
  destruct (ms !! i) as [[name' data]|] eqn:Hm; [|done].
  cbn in Hi. injection Hi as -> <- <-.
  pose proof (lookup_lt_Some _ _ _ Hm) as Hlt.
  pose proof (proj1 (Forall_lookup _ _) Hgood i _ Hm) as [Hname Hsize].
  cbn [fst snd] in Hname, Hsize.
  pose proof (sector_at_ge ms ds i) as Hge.
  pose proof (sector_at_fits ms ds i Hfit Hlt) as Hlt32.
  pose proof (data_start_sector_nonneg format_type (Z.of_nat (length ms))
                ltac:(lia)) as Hds0. fold ds in Hds0.
  unfold list_step.
  rewrite (list_entry_live _ _ _ _ _ (sector_at ms ds i) (getsize data) name);
    [done | destruct format_type; simpl; lia | | lia | done | done].
  cbn [open_rb h_data]. unfold archive_of. fold ms.
  exact (store_of_record format_type ms i name data Hm).
Qed.

Lemma list_img_filtered_of_built_archive_witness :
  list_img_filtered (fun name pat => String.eqb name pat) scenario_fs "x.img"
                    (Some "b.dat"%string)
  = (Ok true, [("b.dat"%string, 5000, 2)]).
Proof.
  rewrite (list_img_filtered_of_built_archive _ scenario_fs VER2 "x.img"
             two_files (Some "b.dat"%string));
    [reflexivity | | exact two_files_readable].
  unfold scenario_fs.
  rewrite (create_img_archive _ VER2 "x.img" "in" two_files);
    [| reflexivity | exact two_files_buildable | reflexivity].
  cbn [snd]. by rewrite lookup_insert_eq.
Defined.

(** ** The report on what was built *)

Lemma info_fold_sizes (ms : list (string * bytes)) (a t : Z) :
  foldl (fun (st : Z * Z) (m : string * bytes) =>
           (getsize m.2, st.2 + getsize m.2)) (a, t) ms
  = (match last ms with Some m => getsize m.2 | None => a end,
     t + total_size ms).
Proof.
  revert a t. induction ms as [|m ms IH]; intros a t.
  - cbn. f_equal. lia.
  - cbn [foldl snd]. rewrite IH. cbn [total_size foldr]. fold (total_size ms).
    f_equal; [|lia]. rewrite last_cons. by destruct (last ms).
Qed.

(** X9: the report on an archive built from a directory of good members
    gives the size of the store, the layout, the number of members, the
    sizes of header and directory, the start of the data and the sum of the
    payload sizes; its overhead is the size of the last member minus that
    sum, and its efficiency is that sum times 100 over the size of the last
    member. *)
Theorem info_img_of_built_archive (fs : filesystem) (format_type : img_format)
    (img_file : string) (M : gmap string bytes) :
  fs !! img_file = Some (File (archive_of format_type M)) ->
  readable format_type M ->
  let ms := members_in_order M in
  let n := Z.of_nat (size M) in
  info_img fs img_file
  = Ok (true,
        Some (Report (getsize (archive_of format_type M)) format_type n
                (header_size_of format_type) (dir_size_of format_type n)
                (data_start_sector_of format_type n)
                (data_start_sector_of format_type n * SECTOR_SIZE)
                (total_size ms) (last_size ms - total_size ms)
                (Some ((total_size ms * 100) / last_size ms)))).
Proof.
  intros Himg Hr ms n. subst n.
  destruct (readable_recognised fs format_type img_file M Himg Hr)
    as [Hdetect Hcount].
  destruct Hr as [Hb _].
  destruct (buildable_members _ _ Hb) as (Hnil & Hgood & Hfit).
  destruct Hb as (Hfmt & _).
  rewrite <- members_in_order_length. fold ms in Hnil, Hgood, Hfit, Hcount |- *.
  unfold info_img. rewrite Himg, Hdetect, Hcount.
  assert (Hfold :
    foldl (fun st i => info_entry (open_rb (archive_of format_type M))
                         (header_size_of format_type) i st)
          (getsize (archive_of format_type M), 0)
          (seqZ 0 (Z.of_nat (length ms)))
    = (last_size ms, total_size ms)).
  { rewrite (foldl_indexed _
               (fun (st : Z * Z) (m : string * bytes) =>
                  (getsize m.2, st.2 + getsize m.2))).
    - rewrite info_fold_sizes. unfold last_size.
      destruct (last ms) eqn:Hl; [done|].
      by apply last_None in Hl.
    - intros i [name data] [a t] Hm.
      pose proof (proj1 (Forall_lookup _ _) Hgood i _ Hm) as [Hname Hsize].
      cbn [fst snd] in Hname, Hsize.
      destruct (store_of_fields format_type ms i name data Hm) as [_ E].
      unfold info_entry. cbn [f_read f_seek h_data h_pos open_rb snd].
      change (header_size_of format_type) with (dir_start_of format_type).
      unfold archive_of. fold ms.
      rewrite E, unpack_le32; [done|]. unfold getsize in *. lia. }
  assert (Hpos : 0 < last_size ms).
  { unfold last_size. destruct (last ms) as [m|] eqn:Hl.
    - apply last_Some_elem_of in Hl.
      rewrite Forall_forall in Hgood. destruct (Hgood m Hl) as [_ ?]. lia.
    - by apply last_None in Hl. }
  destruct format_type; [| |done]; cbn [mbind result_bind];
    rewrite Hfold; (destruct (Z.ltb_spec 0 (last_size ms)); [|lia]);
    reflexivity.
Qed.

Lemma info_img_of_built_archive_witness :
  exists r,
    info_img scenario_fs "x.img" = Ok (true, Some r)
    /\ rep_entries r = 2 /\ rep_total_data_size r = 5010
    /\ rep_overhead r = -10.
Proof.
  eexists. split.
  - apply (info_img_of_built_archive scenario_fs VER2 "x.img" two_files);
      [| exact two_files_readable].
    unfold scenario_fs.
    rewrite (create_img_archive _ VER2 "x.img" "in" two_files);
      [| reflexivity | exact two_files_buildable | reflexivity].
    cbn [snd]. by rewrite lookup_insert_eq.
  - vm_compute. repeat split.
Defined.

(** ** Long names *)

Lemma substring_bytes (n : nat) (s : string) :
  list_byte_of_string (String.substring 0 n s) = take n (list_byte_of_string s).
Proof.
  revert n. induction s as [|c s IH]; intros [|n]; try done.
  cbn [String.substring]. unfold list_byte_of_string in *.
  cbn [list_ascii_of_string map take]. by rewrite <- IH.
Qed.

Lemma cut_name_bytes (name : string) :
  take 24 (list_byte_of_string (cut_name name))
  = take 24 (list_byte_of_string name).
Proof.
  unfold cut_name. destruct (24 <? str_len name); [|done].
  rewrite substring_bytes, take_take. done.
Qed.

Lemma record_bytes_cut (sector filesize : Z) (name : string) :
  record_bytes sector filesize (cut_name name)
  = record_bytes sector filesize name.
Proof. unfold record_bytes. by rewrite cut_name_bytes. Qed.

(** The directory loop on names of any length: each record holds the first
    24 characters of the name. *)
Lemma write_directory_cut (format_type : img_format)
    (input : gmap string bytes) (ms : list (string * bytes)) :
  forall (i sector : Z) (info : file_info) (A B : bytes) (f : handle),
    Forall (fun m => input !! m.1 = Some m.2
                     /\ encode_ascii (cut_name m.1)
                        = Ok (list_byte_of_string (cut_name m.1))
                     /\ getsize m.2 < 4294967296) ms ->
    0 <= sector -> sectors_fit ms sector ->
    h_data f = A ++ replicate (32 * length ms) x00 ++ B ->
    Z.of_nat (length A) = header_size_of format_type + i * 32 ->
    exists p,
      write_directory format_type input ms.*1 i sector info f
      = (Ok (info ++ info_of ms sector),
         Handle (A ++ dir_bytes ms sector ++ B) p).
Proof.
  induction ms as [|[name data] ms IH];
    intros i sector info A B f Hms Hsec Hfit Hd HA.
  - exists (h_pos f). cbn. rewrite app_nil_r. destruct f; cbn in *. by subst.
  - apply Forall_cons in Hms as [(Hin & Henc & Hsize) Hms].
    cbn [fst snd] in Hin, Henc, Hsize.
    destruct Hfit as [Hs Hfit].
    cbn [fmap list_fmap fst write_directory]. rewrite Hin.
    change (if 24 <? str_len name then String.substring 0 24 name else name)
      with (cut_name name).
    rewrite (pack_u32_ok sector) by lia.
    rewrite (pack_u32_ok (getsize data)) by (unfold getsize in *; lia).
    rewrite Henc, cut_name_bytes.
    replace (32 * length ((name, data) :: ms))%nat
      with (32 + 32 * length ms)%nat in Hd by (simpl; lia).
    rewrite replicate_add, <- app_assoc in Hd.
    rewrite (write_record A (replicate (32 * length ms) x00 ++ B)
               (le32 sector) (le32 (getsize data))
               (ljust 24 (take 24 (list_byte_of_string name))) f);
      [| done | unfold header_size_of in HA; lia | done | done |].
    2:{ unfold ljust. rewrite length_app, length_replicate, length_take. lia. }
    edestruct (IH (i + 1) (sector + sectors_needed (getsize data))
                 (info ++ [(name, getsize data, sector)])
                 (A ++ record_bytes sector (getsize data) name) B
                 (Handle (A ++ (le32 sector ++ le32 (getsize data)
                                ++ ljust 24 (take 24 (list_byte_of_string name)))
                            ++ replicate (32 * length ms) x00 ++ B)
                         (match format_type with VER2 => 8 | _ => 0 end
                          + i * 32 + 32)))
      as [p Hp];
      [done | | done
       | cbn [h_data]; unfold record_bytes; by rewrite <- !app_assoc | |].
    + pose proof (sectors_needed_nonneg (getsize data)). unfold getsize in *. lia.
    + rewrite length_app, record_bytes_length. lia.
    + exists p. unfold sectors_needed in Hp. rewrite Hp.
      cbn [dir_bytes info_of]. by rewrite <- !app_assoc.
Qed.

Lemma create_img_rest_cut (format_type : img_format)
    (input : gmap string bytes) (ms : list (string * bytes)) (f : handle) :
  let n := Z.of_nat (length ms) in
  ms <> [] ->
  Forall (fun m => input !! m.1 = Some m.2
                   /\ (encode_ascii (cut_name m.1)
                       = Ok (list_byte_of_string (cut_name m.1))
                       /\ getsize m.2 < 4294967296)
                   /\ m.2 <> []) ms ->
  sectors_fit ms (data_start_sector_of format_type n) ->
  h_data f = header_bytes format_type n ->
  h_pos f = Z.of_nat (length (h_data f)) ->
  exists p,
    (let f := f_write (replicate (Z.to_nat (dir_size_of format_type n
                                           - header_size_of format_type)) x00)
                      f in
     match write_directory format_type input ms.*1 0
             (data_start_sector_of format_type n) [] f with
     | (Ok info, f) =>
         write_data input info
           (f_seek (data_start_sector_of format_type n * SECTOR_SIZE) f)
     | (Raise e, f) => (Raise e, f)
     | (OutOfFuel, f) => (OutOfFuel, f)
     end) = (Ok (), Handle (store_of format_type ms) p).
Proof.
  intros n Hne Hms Hfit Hd Hp. subst n. cbv zeta.
  set (n := Z.of_nat (length ms)) in *.
  assert (Hn : n = Z.of_nat (length ms)) by done. clearbody n.
  pose proof (data_start_after_directory format_type n) as Hds.
  pose proof (header_bytes_length format_type n) as Hh.
  rewrite (f_write_end _ f) by done. rewrite Hd.
  replace (Z.to_nat (dir_size_of format_type n - header_size_of format_type))
    with (32 * length ms)%nat by (unfold dir_size_of; lia).
  edestruct (write_directory_cut format_type input ms 0
               (data_start_sector_of format_type n) []
               (header_bytes format_type n) []
               (Handle (header_bytes format_type n
                        ++ replicate (32 * length ms) x00)
                       (h_pos f + Z.of_nat (length (replicate
                                                      (32 * length ms) x00)))))
    as [p1 Hdir]; [| | done | cbn [h_data]; by rewrite app_nil_r | |].
  { eapply Forall_impl; [exact Hms|]. by intros ? (? & ? & ?). }
  { unfold dir_size_of, SECTOR_SIZE in Hds. lia. }
  { rewrite Hh. lia. }
  rewrite Hdir. cbn [app]. rewrite app_nil_r.
  edestruct (write_data_layout input ms (data_start_sector_of format_type n)
               (f_seek (data_start_sector_of format_type n * SECTOR_SIZE)
                  (Handle (header_bytes format_type n
                           ++ dir_bytes ms (data_start_sector_of format_type n))
                          p1)))
    as [p2 Hdata]; [| done | |].
  { eapply Forall_impl; [exact Hms|]. by intros ? (? & ? & ?). }
  { cbn [f_seek h_data h_pos]. rewrite length_app, dir_bytes_length.
    layout_arith format_type n. }
  rewrite Hdata. exists p2. cbn [f_seek h_data h_pos]. unfold store_of.
  rewrite <- Hn. rewrite <- !app_assoc. do 4 f_equal.
  rewrite length_app, dir_bytes_length. do 2 f_equal.
  layout_arith format_type n.
Qed.

Lemma create_img_body_cut (format_type : img_format)
    (input : gmap string bytes) (ms : list (string * bytes)) :
  format_type <> INVALID ->
  ms <> [] ->
  Forall (fun m => input !! m.1 = Some m.2
                   /\ (encode_ascii (cut_name m.1)
                       = Ok (list_byte_of_string (cut_name m.1))
                       /\ getsize m.2 < 4294967296)
                   /\ m.2 <> []) ms ->
  Z.of_nat (length ms) < 4294967296 ->
  sectors_fit ms (data_start_sector_of format_type (Z.of_nat (length ms))) ->
  exists p,
    create_img_body format_type input ms.*1
    = (Ok (), Handle (store_of format_type ms) p).
Proof.
  intros Hfmt Hne Hms Hn Hfit.
  unfold create_img_body. rewrite length_fmap.
  destruct format_type; [| |done].
  - by apply (create_img_rest_cut VER1 input ms open_wb).
  - cbv zeta. rewrite pack_u32_ok by lia.
    by apply (create_img_rest_cut VER2 input ms
                (f_write (le32 (Z.of_nat (length ms)))
                   (f_write VER2_magic open_wb))).
Qed.

Lemma sector_at_steps (ms : list (string * bytes)) (sector : Z) (i : nat) :
  Forall (fun m => 0 < getsize m.2) ms -> (i < length ms)%nat ->
  sector + Z.of_nat i <= sector_at ms sector i.
Proof.
  revert sector i. induction ms as [|[name data] ms IH]; intros sector i Hms Hi;
    [simpl in Hi; lia|].
  apply Forall_cons in Hms as [Hsize Hms]. cbn [snd] in Hsize.
  destruct i as [|i]; cbn [sector_at]; [lia|].
  specialize (IH (sector + sectors_needed (getsize data)) i Hms
                ltac:(simpl in Hi; lia)).
  assert (1 <= sectors_needed (getsize data)).
  { unfold sectors_needed, SECTOR_SIZE. Z.div_mod_to_equations. lia. }
  lia.
Qed.

(** X10: a file whose name has more than 24 characters is recorded under
    the first 24 characters of its name: in the archive built from a
    directory, the record of each member holds its start sector, its size
    and its cut name, and its payload lies at that sector. *)
Theorem create_img_cuts_long_names (fs : filesystem) (format_type : img_format)
    (img_file input_dir : string) (M : gmap string bytes) :
  fs !! input_dir = Some (Dir M) ->
  format_type <> INVALID ->
  M <> ∅ ->
  map_Forall (fun name data => good_cut_member (name, data)) M ->
  sectors_fit (members_in_order M)
              (data_start_sector_of format_type (Z.of_nat (size M))) ->
  isdir fs img_file = false ->
  exists store,
    create_img fs format_type img_file input_dir
    = (Ok true, <[img_file := File store]> fs)
    /\ forall (i : nat) name data,
         members_in_order M !! i = Some (name, data) ->
         let sector :=
           sector_at (members_in_order M)
                     (data_start_sector_of format_type (Z.of_nat (size M))) i in
         entry_at store (dir_start_of format_type + Z.of_nat i * 32)
         = Ok (sector, getsize data, cut_name name)
         /\ slice store (sector * SECTOR_SIZE) (getsize data) = data.
Proof.
  intros Hin Hfmt Hne HM Hfit Himg.
  pose proof (members_in_order_Forall _ M HM) as Hgood. cbn [fst snd] in Hgood.
  rewrite <- members_in_order_length in Hfit |- *.
  set (ms := members_in_order M) in *.
  set (ds := data_start_sector_of format_type (Z.of_nat (length ms))) in *.
  assert (Hnil : ms <> []).
  { intros Hnil. by apply Hne, members_in_order_nil. }
  assert (Hsizes : Forall (fun m => 0 < getsize m.2) ms).
  { eapply Forall_impl; [exact Hgood|]. intros [name data] [_ ?]. cbn in *. lia. }
  pose proof (data_start_sector_nonneg format_type (Z.of_nat (length ms))
                ltac:(lia)) as Hds0. fold ds in Hds0.
  assert (Hcount : Z.of_nat (length ms) < 4294967296).
  { destruct (decide (length ms = 0%nat)) as [Hz|Hnz]; [rewrite Hz; done|].
    pose proof (sector_at_steps ms ds (length ms - 1) Hsizes ltac:(lia)).
    pose proof (sector_at_fits ms ds (length ms - 1) Hfit ltac:(lia)).
    pose proof (data_start_sector_pos format_type (Z.of_nat (length ms))
                  ltac:(lia)) as Hpos. fold ds in Hpos.
    lia. }
  destruct (create_img_body_cut format_type M ms) as [p Hbody];
    [done | done | | done | done |].
  { pose proof (members_in_order_lookup M) as Hl. fold ms in Hl.
    rewrite Forall_forall in Hl, Hgood |- *.
    intros [name data] Hm. destruct (Hgood _ Hm) as [Hname Hsize].
    cbn [fst snd] in *. split; [by apply (Hl _ Hm)|]. split.
    - split; [|lia]. apply encode_ascii_text.
      unfold storable_name in Hname.
      by apply andb_true_iff in Hname
        as [[[_ ?]%andb_true_iff _]%andb_true_iff _].
    - intros ->. unfold getsize in Hsize. simpl in Hsize. lia. }
  exists (store_of format_type ms). split.
  { unfold create_img. rewrite Hin. subst ms.
    rewrite members_in_order_names in Hbody.
    assert (Hfiles : sorted (listdir M) <> []).
    { rewrite <- members_in_order_names. by intros Hn%fmap_nil_inv. }
    unfold isdir in Himg. rewrite Hbody.
    destruct format_type; [| |done];
      destruct (sorted (listdir M)); try done;
      by destruct (fs !! img_file) as [[|]|]. }
  intros i name data Hi sector. subst sector.
  pose proof (lookup_lt_Some _ _ _ Hi) as Hlt.
  pose proof (proj1 (Forall_lookup _ _) Hgood i _ Hi) as [Hname Hsize].
  cbn [fst snd] in Hname, Hsize.
  pose proof (sector_at_ge ms ds i) as Hge.
  pose proof (sector_at_fits ms ds i Hfit Hlt) as Hlt32.
  split.
  - apply entry_at_record; [destruct format_type; simpl; lia | | lia | lia | done].
    rewrite record_bytes_cut.
    exact (store_of_record format_type ms i name data Hi).
  - exact (store_of_member format_type ms i name data Hi).
Qed.

Lemma create_img_cuts_long_names_witness :
  exists store,
    create_img (<["in" := Dir (<["abcdefghijklmnopqrstuvwxyz.dat" := [x41]]> ∅)]> ∅)
               VER2 "x.img" "in"
    = (Ok true,
       <["x.img" := File store]>
         (<["in" := Dir (<["abcdefghijklmnopqrstuvwxyz.dat" := [x41]]> ∅)]> ∅))
    /\ entry_at store 8 = Ok (1, 1, "abcdefghijklmnopqrstuvwx"%string).
Proof.
  destruct (create_img_cuts_long_names
              (<["in" := Dir (<["abcdefghijklmnopqrstuvwxyz.dat" := [x41]]> ∅)]> ∅)
              VER2 "x.img" "in"
              (<["abcdefghijklmnopqrstuvwxyz.dat" := [x41]]> ∅))
    as (store & Hc & Hl).
  - reflexivity.
  - discriminate.
  - intros H.
    apply (f_equal (fun m => m !! "abcdefghijklmnopqrstuvwxyz.dat")) in H.
    rewrite lookup_insert_eq in H. discriminate H.
  - apply map_Forall_insert_2; [|apply map_Forall_empty].
    split; [reflexivity | vm_compute; split; reflexivity].
  - vm_compute. repeat split.
  - reflexivity.
  - exists store. split; [exact Hc|].
    apply (Hl 0%nat "abcdefghijklmnopqrstuvwxyz.dat"%string [x41]).
    reflexivity.
Defined.

(** ** Changing an archive *)

Lemma good_member_name (M : gmap string bytes) (name : string) (data : bytes) :
  map_Forall (fun name data => good_member (name, data)) M ->
  M !! name = Some data ->
  plain_name name = true /\ String.eqb name "" = false /\ str_len name <= 24.
Proof.
  intros HM Hname. destruct (HM _ _ Hname) as [Hs _]. cbn [fst] in Hs.
  unfold storable_name in Hs.
  apply andb_true_iff in Hs as [[[Hlen _]%andb_true_iff _]%andb_true_iff Hp].
  apply Z.leb_le in Hlen. split; [done|]. split; [|done].
  unfold plain_name in Hp. by destruct (String.eqb name "").
Qed.

(** Extraction of a built archive into a scratch directory that does not
    exist yet. *)
Lemma extract_img_scratch (fs : filesystem) (format_type : img_format)
    (img_file work_dir : string) (M : gmap string bytes) :
  fs !! img_file = Some (File (archive_of format_type M)) ->
  readable format_type M ->
  fs !! work_dir = None ->
  extract_img fs img_file work_dir = (Ok true, <[work_dir := Dir M]> fs).
Proof.
  intros Himg Hr Hwork.
  rewrite (extract_img_archive fs format_type img_file work_dir M);
    [| done | done | by unfold isfile; rewrite Hwork].
  unfold dir_files. by rewrite Hwork, (right_id_L ∅ (∪)).
Qed.


Lemma archive_holds_file (fs : filesystem) (img_file : string)
    (format_type : img_format) (M : gmap string bytes) :
  archive_holds fs img_file format_type M ->
  exists data, fs !! img_file = Some (File data).
Proof.
  intros (<- & Hfmt & _). by apply detect_img_format_valid_file.
Qed.

(** Extraction of an archive the tool reads into a scratch directory that
    does not exist yet. *)
Lemma extract_img_members (fs : filesystem) (img_file work_dir : string)
    (format_type : img_format) (M : gmap string bytes) :
  archive_holds fs img_file format_type M ->
  fs !! work_dir = None ->
  extract_img fs img_file work_dir = (Ok true, <[work_dir := Dir M]> fs).
Proof.
  intros Hh Hwork. destruct (archive_holds_file _ _ _ _ Hh) as [data Himg].
  destruct Hh as (<- & Hfmt & [n Hcount] & <-).
  unfold extract_img.
  rewrite (extract_img_log_valid fs img_file work_dir data n);
    [| done | by unfold isfile; rewrite Hwork | done | done].
  cbn [fst]. rewrite (archive_members_fold fs img_file data n) by done.
  unfold dir_files. by rewrite Hwork.
Qed.

(** A built archive is one the tool reads, and its members are the files it
    was built from. *)
Lemma built_archive_holds (fs : filesystem) (img_file : string)
    (format_type : img_format) (M : gmap string bytes) :
  fs !! img_file = Some (File (archive_of format_type M)) ->
  readable format_type M ->
  archive_holds fs img_file format_type M.
Proof.
  intros Himg Hr.
  destruct (readable_recognised fs format_type img_file M Himg Hr)
    as [Hdetect Hcount].
  pose proof Hr as [Hb _].
  destruct (buildable_members _ _ Hb) as (_ & Hgood & Hfit).
  destruct Hb as (Hfmt & _).
  split; [done|]. split; [done|]. split; [by eexists|].
  rewrite (archive_members_fold fs img_file _
             (Z.of_nat (length (members_in_order M))) Himg);
    rewrite Hdetect; [| done | exact Hcount].
  unfold archive_of. rewrite extract_fold_store by done.
  rewrite write_member_files. cbn [ex_files].
  by rewrite write_members_union, (right_id_L ∅ (∪)).
Qed.


Lemma scenario_archive :
  scenario_fs !! "x.img" = Some (File (archive_of VER2 two_files)).
Proof.
  unfold scenario_fs.
  rewrite (create_img_archive _ VER2 "x.img" "in" two_files);
    [| reflexivity | exact two_files_buildable | reflexivity].
  cbn [snd]. by rewrite lookup_insert_eq.
Qed.



Lemma scenario_scratch_fresh : scenario_fs !! work_dir_of "tmp" = None.
Proof.
  unfold scenario_fs.
  rewrite (create_img_other_paths _ VER2 "x.img" "in" (work_dir_of "tmp"));
    [reflexivity | discriminate].
Qed.

(** ** Adding files *)










(** ** Removing files *)













(** ** Rebuilding *)

Lemma append_not_self (s t : string) : t <> ""%string -> (s ++ t)%string <> s.
Proof.
  intros Ht. induction s as [|c s IH]; [done|].
  cbn. intros [= H]. by apply IH.
Qed.

Lemma backup_file_is_not_archive (img_file : string) (now : Z) :
  backup_file_of img_file now <> img_file.
Proof. unfold backup_file_of. by apply append_not_self. Qed.

Lemma archive_holds_ext (fs fs' : filesystem) (img_file : string)
    (format_type : img_format) (M : gmap string bytes) :
  fs !! img_file = fs' !! img_file ->
  archive_holds fs img_file format_type M ->
  archive_holds fs' img_file format_type M.
Proof.
  intros Heq (Hdetect & Hfmt & [n Hcount] & Hmembers).
  assert (Hd : detect_img_format fs' img_file = detect_img_format fs img_file)
    by by apply detect_img_format_ext.
  split; [by rewrite Hd|]. split; [done|]. split.
  - exists n. by rewrite (get_entry_count_ext fs' fs).
  - rewrite <- Hmembers. unfold archive_members. rewrite <- Heq, Hd.
    by rewrite (get_entry_count_ext fs' fs).
Qed.

Lemma rebuild_img_members (fs : filesystem) (format_type : img_format)
    (temp_dir img_file : string) (now : Z) (store : bytes)
    (M : gmap string bytes) :
  archive_holds fs img_file format_type M ->
  fs !! img_file = Some (File store) ->
  fs !! work_dir_of temp_dir = None ->
  isdir fs (backup_file_of img_file now) = false ->
  work_dir_of temp_dir <> backup_file_of img_file now ->
  buildable format_type M ->
  rebuild_img fs temp_dir now img_file
  = (Ok true,
     <[img_file := File (archive_of format_type M)]>
       (<[work_dir_of temp_dir := Dir M]>
          (<[backup_file_of img_file now := File store]> fs))).
Proof.
  intros Hh Himg Hwork Hback Hne Hb.
  pose proof Hh as (Hdetect & Hfmt & _).
  pose proof (backup_file_is_not_archive img_file now) as Hbne.
  unfold rebuild_img. rewrite Hdetect.
  assert (Hcopy : copy2 fs img_file (backup_file_of img_file now)
                  = Ok (<[backup_file_of img_file now := File store]> fs)).
  { unfold copy2. rewrite Himg. unfold isdir in Hback.
    destruct (String.eqb_spec img_file (backup_file_of img_file now));
      [congruence|].
    by destruct (fs !! backup_file_of img_file now) as [[?|?]|]. }
  rewrite Hcopy.
  rewrite (extract_img_members _ img_file _ format_type M);
    [| | by rewrite lookup_insert_ne].
  2:{ apply (archive_holds_ext fs); [|done]. by rewrite lookup_insert_ne. }
  rewrite (create_img_archive _ format_type img_file _ M);
    [by destruct format_type | by rewrite lookup_insert_eq | done |].
  unfold isdir. rewrite lookup_insert_ne by congruence.
  by rewrite lookup_insert_ne, Himg.
Qed.



(** X19: rebuilding a built archive gives the same archive, byte for byte,
    and leaves a copy of it under the backup name. *)
Theorem rebuild_img_idempotent (fs : filesystem) (format_type : img_format)
    (temp_dir img_file : string) (now : Z) (M : gmap string bytes) :
  fs !! img_file = Some (File (archive_of format_type M)) ->
  readable format_type M ->
  fs !! work_dir_of temp_dir = None ->
  isdir fs (backup_file_of img_file now) = false ->
  work_dir_of temp_dir <> backup_file_of img_file now ->
  rebuild_img fs temp_dir now img_file
  = (Ok true,
     <[img_file := File (archive_of format_type M)]>
       (<[work_dir_of temp_dir := Dir M]>
          (<[backup_file_of img_file now := File (archive_of format_type M)]>
             fs))).
Proof.
  intros Himg Hr Hwork Hback Hne.
  apply rebuild_img_members; try done.
  - by apply built_archive_holds.
  - by destruct Hr.
Qed.

Lemma rebuild_img_idempotent_witness :
  rebuild_img scenario_fs "tmp" 1700000000 "x.img"
  = (Ok true,
     <["x.img" := File (archive_of VER2 two_files)]>
       (<[work_dir_of "tmp" := Dir two_files]>
          (<[backup_file_of "x.img" 1700000000 :=
               File (archive_of VER2 two_files)]> scenario_fs))).
Proof.
  apply (rebuild_img_idempotent scenario_fs VER2 "tmp" "x.img" 1700000000
           two_files).
  - exact scenario_archive.
  - exact two_files_readable.
  - exact scenario_scratch_fresh.
  - unfold isdir, scenario_fs.
    rewrite (create_img_other_paths _ VER2 "x.img" "in");
      [reflexivity | by vm_compute].
  - by vm_compute.
Defined.



(** ** Renaming, when it fails *)



(** ** Names that are not ASCII *)

Lemma f_write_inside_length (b : bytes) (f : handle) :
  0 <= h_pos f ->
  h_pos f + Z.of_nat (length b) <= Z.of_nat (length (h_data f)) ->
  length (h_data (f_write b f)) = length (h_data f).
Proof.
  intros Hpos Hfit. unfold f_write. destruct b as [|c b]; [done|].
  cbn [h_data].
  replace (Z.to_nat (h_pos f) - length (h_data f))%nat with 0%nat by lia.
  cbn [replicate]. rewrite app_nil_r.
  rewrite !length_app, length_take, length_drop. lia.
Qed.

Lemma f_write_pos (b : bytes) (f : handle) :
  h_pos (f_write b f) = h_pos f + Z.of_nat (length b).
Proof.
  unfold f_write. destruct b as [|c b]; [|done]. cbn [length]. lia.
Qed.

Lemma encode_ascii_cases (s : string) :
  encode_ascii s = Ok (list_byte_of_string s)
  \/ encode_ascii s = Raise UnicodeEncodeError.
Proof. unfold encode_ascii. destruct (forallb _ _); auto. Qed.

(** The directory loop stops at the first name that cannot be encoded; the
    table it was filling keeps its length. *)
Lemma write_directory_bad_name (format_type : img_format)
    (input : gmap string bytes) (ms : list (string * bytes)) :
  forall (i sector : Z) (info : file_info) (f : handle),
    Forall (fun m => input !! m.1 = Some m.2 /\ getsize m.2 < 4294967296) ms ->
    0 <= sector -> sectors_fit ms sector ->
    Exists (fun m => encode_ascii (cut_name m.1) = Raise UnicodeEncodeError)
           ms ->
    0 <= i ->
    header_size_of format_type + (i + Z.of_nat (length ms)) * 32
    <= Z.of_nat (length (h_data f)) ->
    exists f',
      write_directory format_type input ms.*1 i sector info f
      = (Raise UnicodeEncodeError, f')
      /\ length (h_data f') = length (h_data f).
Proof.
  induction ms as [|[name data] ms IH];
    intros i sector info f Hms Hsec Hfit Hbad Hi Hlen.
  - by apply Exists_nil in Hbad.
  - apply Forall_cons in Hms as [[Hin Hsize] Hms].
    cbn [fst snd] in Hin, Hsize. destruct Hfit as [Hs Hfit].
    cbn [fmap list_fmap fst write_directory]. rewrite Hin.
    change (if 24 <? str_len name then String.substring 0 24 name else name)
      with (cut_name name).
    rewrite (pack_u32_ok sector) by lia.
    rewrite (pack_u32_ok (getsize data)) by (unfold getsize in *; lia).
    change (match format_type with VER2 => 8 | _ => 0 end)
      with (header_size_of format_type).
    assert (Hh : 0 <= header_size_of format_type)
      by (destruct format_type; simpl; lia).
    cbn [length] in Hlen.
    set (f0 := f_seek (header_size_of format_type + i * 32) f).
    set (f1 := f_write (le32 sector) f0).
    set (f2 := f_write (le32 (getsize data)) f1).
    assert (L1 : length (h_data f1) = length (h_data f)).
    { subst f1 f0. rewrite f_write_inside_length; [done | simpl; lia |].
      cbn [f_seek h_data h_pos length le32]. lia. }
    assert (P1 : h_pos f1 = header_size_of format_type + i * 32 + 4).
    { subst f1 f0. rewrite f_write_pos. cbn [f_seek h_pos length le32]. lia. }
    assert (L2 : length (h_data f2) = length (h_data f)).
    { subst f2. rewrite f_write_inside_length; [done | lia |].
      rewrite P1, L1. cbn [length le32]. lia. }
    assert (P2 : h_pos f2 = header_size_of format_type + i * 32 + 8).
    { subst f2. rewrite f_write_pos, P1. cbn [length le32]. lia. }
    destruct (encode_ascii_cases (cut_name name)) as [Henc|Henc]; rewrite Henc.
    + apply Exists_cons in Hbad as [Hbad|Hbad];
        [cbn [fst] in Hbad; congruence|].
      set (b := ljust 24 (take 24 (list_byte_of_string (cut_name name)))).
      assert (Hb : length b = 24%nat).
      { subst b. unfold ljust.
        rewrite length_app, length_replicate, length_take. lia. }
      destruct (IH (i + 1) (sector + (getsize data + SECTOR_SIZE - 1) / SECTOR_SIZE)
                   (info ++ [(name, getsize data, sector)]) (f_write b f2))
        as (f' & Hw & Hl); [done | | done | done | lia | |].
      * pose proof (sectors_needed_nonneg (getsize data)) as Hn.
        unfold sectors_needed, getsize in *. lia.
      * rewrite f_write_inside_length; [lia | lia |]. rewrite P2, L2, Hb. lia.
      * exists f'. split; [exact Hw|]. rewrite Hl.
        rewrite f_write_inside_length; [lia | lia |]. rewrite P2, L2, Hb. lia.
    + exists f2. split; [done|]. by rewrite L2.
Qed.

Lemma create_img_bad_name (fs : filesystem) (format_type : img_format)
    (img_file input_dir : string) (M : gmap string bytes) (name : string) :
  fs !! input_dir = Some (Dir M) ->
  format_type <> INVALID ->
  isdir fs img_file = false ->
  is_Some (M !! name) ->
  encode_ascii (cut_name name) = Raise UnicodeEncodeError ->
  map_Forall (fun _ data => getsize data < 4294967296) M ->
  Z.of_nat (size M) < 4294967296 ->
  sectors_fit (members_in_order M)
              (data_start_sector_of format_type (Z.of_nat (size M))) ->
  exists store,
    create_img fs format_type img_file input_dir
    = (Raise UnicodeEncodeError, <[img_file := File store]> fs)
    /\ getsize store = dir_size_of format_type (Z.of_nat (size M)).
Proof.
  intros Hin Hfmt Himg Hname Henc HM Hcount Hfit.
  pose proof (members_in_order_Forall _ M HM) as Hsizes. cbn [snd] in Hsizes.
  pose proof (members_in_order_lookup M) as Hlook.
  rewrite <- members_in_order_length in Hfit, Hcount |- *.
  set (ms := members_in_order M) in *.
  set (n := Z.of_nat (length ms)) in *.
  assert (Hbad : Exists (fun m => encode_ascii (cut_name m.1)
                                  = Raise UnicodeEncodeError) ms).
  { apply Exists_exists.
    assert (Hin' : name ∈ ms.*1).
    { subst ms. rewrite members_in_order_names.
      by apply elem_of_sorted_listdir. }
    apply list_elem_of_fmap in Hin' as ([name' data] & -> & Hm).
    by exists (name', data). }
  assert (Hnil : sorted (listdir M) <> []).
  { rewrite <- members_in_order_names. fold ms. intros Hn%fmap_nil_inv.
    rewrite Hn in Hbad. by apply Exists_nil in Hbad. }
  pose proof (data_start_sector_nonneg format_type n ltac:(lia)) as Hds0.
  assert (Hhead : exists f,
            h_data f = header_bytes format_type n
            /\ h_pos f = Z.of_nat (length (h_data f))
            /\ create_img_body format_type M ms.*1
               = (let f := f_write (replicate
                                      (Z.to_nat (dir_size_of format_type n
                                                 - header_size_of format_type))
                                      x00) f in
                  match write_directory format_type M ms.*1 0
                          (data_start_sector_of format_type n) [] f with
                  | (Ok info, f) =>
                      write_data M info
                        (f_seek (data_start_sector_of format_type n
                                 * SECTOR_SIZE) f)
                  | (Raise e, f) => (Raise e, f)
                  | (OutOfFuel, f) => (OutOfFuel, f)
                  end)).
  { unfold create_img_body. rewrite length_fmap. fold n.
    destruct format_type; [| |done].
    - by exists open_wb.
    - cbv zeta. rewrite pack_u32_ok by lia.
      by exists (f_write (le32 n) (f_write VER2_magic open_wb)). }
  destruct Hhead as (f & Hd & Hp & Hbody).
  pose proof (header_bytes_length format_type n) as Hh.
  assert (Hh0 : 0 <= header_size_of format_type)
    by (destruct format_type; simpl; lia).
  cbv zeta in Hbody. rewrite (f_write_end _ f) in Hbody by done.
  destruct (write_directory_bad_name format_type M ms 0
              (data_start_sector_of format_type n) []
              (Handle (h_data f
                       ++ replicate (Z.to_nat (dir_size_of format_type n
                                               - header_size_of format_type))
                                    x00)
                      (h_pos f
                       + Z.of_nat (length
                                     (replicate
                                        (Z.to_nat (dir_size_of format_type n
                                                   - header_size_of format_type))
                                        x00)))))
    as (f' & Hw & Hl); [| done | done | done | done | |].
  { rewrite Forall_forall in Hlook, Hsizes |- *. intros m Hm.
    split; [by apply Hlook | by apply Hsizes]. }
  { cbn [h_data]. rewrite length_app, length_replicate, Hd.
    unfold dir_size_of. fold n. lia. }
  rewrite Hw in Hbody. exists (h_data f'). split.
  - unfold create_img. rewrite Hin. subst ms.
    rewrite members_in_order_names in Hbody. unfold isdir in Himg.
    rewrite Hbody.
    destruct format_type; [| |done];
      destruct (sorted (listdir M)); try done;
      by destruct (fs !! img_file) as [[|]|].
  - unfold getsize. rewrite Hl. cbn [h_data].
    rewrite length_app, length_replicate, Hd. unfold dir_size_of. lia.
Qed.

(** X22: when the name of a file of the directory cannot be encoded in
    ASCII, the builder raises [UnicodeEncodeError] after it has opened the
    archive for writing: the archive path is left with a store of the size
    of header and directory table, with no payload, whatever it held
    before. *)
Theorem create_img_non_ascii_name (fs : filesystem) (format_type : img_format)
    (img_file input_dir : string) (M : gmap string bytes) (name : string) :
  fs !! input_dir = Some (Dir M) ->
  format_type <> INVALID ->
  isdir fs img_file = false ->
  is_Some (M !! name) ->
  encode_ascii (cut_name name) = Raise UnicodeEncodeError ->
  map_Forall (fun _ data => getsize data < 4294967296) M ->
  Z.of_nat (size M) < 4294967296 ->
  sectors_fit (members_in_order M)
              (data_start_sector_of format_type (Z.of_nat (size M))) ->
  exists store,
    create_img fs format_type img_file input_dir
    = (Raise UnicodeEncodeError, <[img_file := File store]> fs)
    /\ getsize store = dir_size_of format_type (Z.of_nat (size M)).
Proof. apply create_img_bad_name. Qed.


Lemma create_img_non_ascii_name_witness :
  exists store,
    create_img
      (<["x.img" := File (archive_of VER2 two_files)]>
         (<["in" := Dir (<[String "233" "t.dat" := [x41]]> ∅)]> ∅))
      VER2 "x.img" "in"
    = (Raise UnicodeEncodeError,
       <["x.img" := File store]>
         (<["x.img" := File (archive_of VER2 two_files)]>
            (<["in" := Dir (<[String "233" "t.dat" := [x41]]> ∅)]> ∅)))
    /\ getsize store = 40.
Proof.
  destruct (create_img_non_ascii_name
              (<["x.img" := File (archive_of VER2 two_files)]>
                 (<["in" := Dir (<[String "233" "t.dat" := [x41]]> ∅)]> ∅))
              VER2 "x.img" "in" (<[String "233" "t.dat" := [x41]]> ∅)
              (String "233" "t.dat")) as (store & Hc & Hs).
  - reflexivity.
  - discriminate.
  - reflexivity.
  - rewrite lookup_insert_eq. by eexists.
  - reflexivity.
  - apply map_Forall_insert_2; [|apply map_Forall_empty]. by vm_compute.
  - by vm_compute.
  - vm_compute. repeat split.
  - exists store. split; [exact Hc|]. rewrite Hs. reflexivity.
Defined.

(** X23: renaming a member of a built archive to a name that is not ASCII
    passes the checks of the call, and the rebuild then raises
    [UnicodeEncodeError]: the archive is left with its header and directory
    table only, and the payloads remain in the scratch directory. *)
Theorem rename_in_img_non_ascii_name (fs : filesystem)
    (format_type : img_format)
    (temp_dir img_file old_name new_name : string) (data : bytes)
    (M : gmap string bytes) :
  fs !! img_file = Some (File (archive_of format_type M)) ->
  readable format_type M ->
  fs !! work_dir_of temp_dir = None ->
  M !! old_name = Some data ->
  M !! new_name = None ->
  str_len new_name <= 24 ->
  plain_name new_name = true ->
  encode_ascii new_name = Raise UnicodeEncodeError ->
  sectors_fit (members_in_order (<[new_name := data]> (delete old_name M)))
              (data_start_sector_of format_type (Z.of_nat (size M))) ->
  exists store,
    rename_in_img fs temp_dir img_file old_name new_name
    = (Raise UnicodeEncodeError,
       <[img_file := File store]>
         (<[work_dir_of temp_dir :=
              Dir (<[new_name := data]> (delete old_name M))]> fs))
    /\ getsize store = dir_size_of format_type (Z.of_nat (size M)).
Proof.
  intros Himg Hr Hwork Hold Hnew Hlen Hplain Henc Hfit.
  destruct (readable_recognised fs format_type img_file M Himg Hr)
    as [Hdetect _].
  pose proof Hr as [Hb _]. pose proof Hb as (Hfmt & _ & HM & _).
  destruct (buildable_members _ _ Hb) as (_ & Hgood & Hfit0).
  pose proof (members_count_fits format_type _ Hgood Hfit0) as Hcount.
  rewrite members_in_order_length in Hcount.
  destruct (good_member_name M old_name data HM Hold) as (_ & Ho & _).
  assert (Hn : String.eqb new_name "" = false).
  { unfold plain_name in Hplain. by destruct (String.eqb new_name ""). }
  assert (Hne : img_file <> work_dir_of temp_dir) by congruence.
  assert (Hsize : size (<[new_name := data]> (delete old_name M)) = size M).
  { rewrite map_size_insert_None by by rewrite lookup_delete_ne by congruence.
    rewrite map_size_delete_Some by done.
    assert (size M <> 0%nat); [|lia].
    intros Hz%map_size_empty_iff. subst M. by rewrite lookup_empty in Hold. }
  destruct (create_img_bad_name
              (<[work_dir_of temp_dir :=
                   Dir (<[new_name := data]> (delete old_name M))]> fs)
              format_type img_file (work_dir_of temp_dir)
              (<[new_name := data]> (delete old_name M)) new_name)
    as (store & Hc & Hs).
  - by rewrite lookup_insert_eq.
  - done.
  - unfold isdir. by rewrite lookup_insert_ne, Himg.
  - rewrite lookup_insert_eq. by eexists.
  - unfold cut_name. by destruct (Z.ltb_spec 24 (str_len new_name)); [lia|].
  - apply map_Forall_insert_2.
    + destruct (HM _ _ Hold) as [_ ?]. cbn [snd] in *. lia.
    + apply map_Forall_delete. intros k v Hk.
      destruct (HM _ _ Hk) as [_ ?]. cbn [snd] in *. lia.
  - by rewrite Hsize.
  - by rewrite Hsize.
  - exists store. rewrite Hsize in Hs. split; [|done].
    unfold rename_in_img. rewrite Ho, Hn. cbn [orb].
    destruct (Z.ltb_spec 24 (str_len new_name)); [lia|].
    rewrite Hdetect.
    rewrite (extract_img_scratch fs format_type img_file _ M) by done.
    rewrite lookup_insert_eq.
    rewrite bool_decide_eq_true_2 by by rewrite Hold.
    rewrite bool_decide_eq_false_2 by (rewrite Hnew; by intros [? ?]).
    cbn [negb]. unfold rename_file. rewrite Hold, Hplain.
    rewrite insert_insert_eq, Hc. by destruct format_type.
Qed.

Lemma rename_in_img_non_ascii_name_witness :
  exists store,
    rename_in_img scenario_fs "tmp" "x.img" "a.dat" (String "233" ".dat")
    = (Raise UnicodeEncodeError,
       <["x.img" := File store]>
         (<[work_dir_of "tmp" :=
              Dir (<[String "233" ".dat" := replicate 10 x41]>
                     (delete "a.dat" two_files))]> scenario_fs))
    /\ getsize store = 72.
Proof.
  destruct (rename_in_img_non_ascii_name scenario_fs VER2 "tmp" "x.img"
              "a.dat" (String "233" ".dat") (replicate 10 x41) two_files)
    as (store & Hc & Hs).
  - exact scenario_archive.
  - exact two_files_readable.
  - exact scenario_scratch_fresh.
  - reflexivity.
  - reflexivity.
  - by vm_compute.
  - reflexivity.
  - reflexivity.
  - vm_compute. repeat split.
  - exists store. split; [exact Hc|]. rewrite Hs. reflexivity.
Defined.
